(** * The data-integration pipeline of [data_integration.py]

    A shallow embedding of [DataIntegrationPipeline]: the currency
    converter, the two normalizers, the integrator (a pandas left merge on
    [industry]), the validator, the simulated data source and the
    orchestrator, followed by the properties the specification states
    about them and by further properties read off the code.

    Modelling conventions.
    - A pandas [DataFrame] is a list of rows (records with one field per
      column); a [Series] is a list of cells, aligned with the rows by
      position.  A column-wise pandas expression becomes a [map] or a
      position-wise [zip_with] over such lists.
    - The tables have the columns that the pipeline gives them: the raw
      and normalized private schema, the benchmark schema and the 18
      columns of the integrated table.
    - A cell of an [object] column is an [option string]; [None] is the
      null of pandas.  A cell of a [float64] column is a [float64] below,
      whose [NaN] is the null of pandas.
    - A [float64] is an exact rational or one of the three special values
      of IEEE 754.  The rounding error of binary64 operations, overflow
      and the sign of zero are not represented: the finite part is exact
      rational arithmetic.  Where a property would not survive these, its
      statement says so: it asks that the magnitudes stay in the range
      that binary64 reaches without overflow ([binary64_safe]) or
      underflow ([binary64_normal]), and it bounds the distance of a
      result to the exact value ([binary64_close], and [cent_close] for a
      rounded result) instead of naming the last digit, or the cent that
      a tie goes to.
    - A Python [str] is the string of its UTF-8 bytes.
    - The random generator of numpy is not modelled: the simulators take
      the drawn values as an argument. *)

From Stdlib Require Import QArith Qround Qabs ZArith Lia Lqa.
From stdpp Require Import gmap strings list fin_maps.

(** ** Numbers *)

Module Float.

Local Open Scope Q_scope.

Inductive float64 : Type :=
| Num (q : Q)
| PosInf
| NegInf
| NaN.

(** Equality of floats: equal rationals, or the same special value. This is
    the equality of values, not the [==] of IEEE 754 (under which [NaN]
    differs from itself). *)
Definition feq (x y : float64) : Prop :=
  match x, y with
  | Num a, Num b => a == b
  | PosInf, PosInf | NegInf, NegInf | NaN, NaN => True
  | _, _ => False
  end.

(** [pd.isnull] on a float cell. *)
Definition isnull (x : float64) : bool :=
  match x with NaN => true | _ => false end.

Definition is_inf (x : float64) : bool :=
  match x with PosInf | NegInf => true | _ => false end.

Definition fopp (x : float64) : float64 :=
  match x with
  | Num a => Num (- a)
  | PosInf => NegInf
  | NegInf => PosInf
  | NaN => NaN
  end.

Definition fadd (x y : float64) : float64 :=
  match x, y with
  | NaN, _ | _, NaN => NaN
  | Num a, Num b => Num (a + b)
  | PosInf, NegInf | NegInf, PosInf => NaN
  | PosInf, _ | _, PosInf => PosInf
  | NegInf, _ | _, NegInf => NegInf
  end.

Definition fsub (x y : float64) : float64 := fadd x (fopp y).

(** An infinity of sign [pos] scaled by the finite factor [b]. The product
    of two numbers below is the exact one: binary64 rounds it, overflows
    to an infinity beyond about 1.8e308 and underflows to a zero. *)
Definition inf_scaled (pos : bool) (b : Q) : float64 :=
  match b ?= 0 with
  | Eq => NaN
  | Gt => if pos then PosInf else NegInf
  | Lt => if pos then NegInf else PosInf
  end.

Definition fmul (x y : float64) : float64 :=
  match x, y with
  | NaN, _ | _, NaN => NaN
  | Num a, Num b => Num (a * b)
  | PosInf, Num b => inf_scaled true b
  | NegInf, Num b => inf_scaled false b
  | Num a, PosInf => inf_scaled true a
  | Num a, NegInf => inf_scaled false a
  | PosInf, PosInf | NegInf, NegInf => PosInf
  | PosInf, NegInf | NegInf, PosInf => NegInf
  end.

(** True division. A finite dividend over zero is an infinity (or [NaN] for
    [0 / 0]); numpy and pandas return that value, they do not raise. The
    zero of the model has no sign, so the sign given to [x / 0] is that of
    [x / +0.0]; the quotient of two numbers is the exact one. *)
Definition fdiv (x y : float64) : float64 :=
  match x, y with
  | NaN, _ | _, NaN => NaN
  | Num a, Num b =>
      if Qeq_bool b 0
      then match a ?= 0 with Eq => NaN | Gt => PosInf | Lt => NegInf end
      else Num (a / b)
  | Num _, (PosInf | NegInf) => Num 0
  | PosInf, Num b => if Qle_bool 0 b then PosInf else NegInf
  | NegInf, Num b => if Qle_bool 0 b then NegInf else PosInf
  | (PosInf | NegInf), (PosInf | NegInf) => NaN
  end.

(** [x < 0] as pandas evaluates it cell by cell: false on [NaN]. *)
Definition flt0 (x : float64) : bool :=
  match x with
  | Num a => match a ?= 0 with Lt => true | _ => false end
  | NegInf => true
  | PosInf | NaN => false
  end.

(** [np.rint]: the nearest integer, a tie going to the even neighbour. *)
Definition rint (q : Q) : Z :=
  let f := Qfloor q in
  match ((q - inject_Z f) ?= (1 # 2))%Q with
  | Lt => f
  | Gt => (f + 1)%Z
  | Eq => if Z.even f then f else (f + 1)%Z
  end.

(** [Series.round(decimals)] on one cell: numpy scales by [10 ^ decimals],
    applies [rint] and scales back. Special values pass through. Here the
    scaled number is the exact one. In binary64 it carries the error of
    the cell and of the product, so at a decimal tie (8.345) the code can
    go to the other cent, and beyond about 1.8e306 its product overflows:
    the properties of rounded cells below are bounds on the distance to
    the exact value ([cent_close]), under [binary64_safe]. *)
Definition fround (decimals : nat) (x : float64) : float64 :=
  match x with
  | Num a =>
      let scale := inject_Z (10 ^ Z.of_nat decimals) in
      Num (inject_Z (rint (a * scale)) / scale)
  | _ => x
  end.

(** A value with at most [decimals] decimal places; the special values
    have no digits to speak of. *)
Definition has_decimals (decimals : nat) (x : float64) : Prop :=
  match x with
  | Num a => exists k : Z, a == inject_Z k / inject_Z (10 ^ Z.of_nat decimals)
  | _ => True
  end.

Definition of_int (z : Z) : float64 := Num (inject_Z z).

(** A magnitude that binary64 reaches without overflow, with room for the
    rounding of a few operations: at most [2 ^ 1023]. *)
Definition binary64_safe (q : Q) : Prop :=
  Qabs q <= inject_Z (2 ^ 1023).

(** Zero, or a magnitude in the normal range of binary64: no overflow and
    no underflow. *)
Definition binary64_normal (q : Q) : Prop :=
  q == 0 \/ (1 # 2 ^ 1022 <= Qabs q /\ binary64_safe q).

(** A bound, with room to spare, on the relative error of a handful of
    binary64 operations on normal numbers (each is exact to one part in
    [2 ^ 53]): one part in [10 ^ 12]. *)
Definition binary64_eps : Q := 1 # 1000000000000.

(** [y] is [x] as far as binary64 computes it. *)
Definition binary64_close (y x : Q) : Prop :=
  Qabs (y - x) <= Qabs x * binary64_eps.

(** [y] is [x] rounded to the cent as far as binary64 computes it: within
    half a cent of [x], whichever way a tie goes, and up to the relative
    error of the operations (which exceeds half a cent for magnitudes
    beyond about 4e13). *)
Definition cent_close (y x : Q) : Prop :=
  Qabs (y - x) <= (1 # 200) + Qabs x * binary64_eps.

(** The floating-point exceptions that numpy reports for a division of
    scalars, as a [RuntimeWarning]: "divide by zero encountered" for a
    non-zero number over zero, "invalid value encountered" for [0 / 0] and
    for an infinity over an infinity. numpy warns and returns the value of
    [fdiv]; it raises nothing. *)
Inductive RuntimeWarning : Type :=
| DivideByZero
| InvalidValue.

Definition fdiv_warning (x y : float64) : option RuntimeWarning :=
  match x, y with
  | Num a, Num b =>
      if Qeq_bool b 0
      then if Qeq_bool a 0 then Some InvalidValue else Some DivideByZero
      else None
  | (PosInf | NegInf), (PosInf | NegInf) => Some InvalidValue
  | _, _ => None
  end.

End Float.

Import Float.

(** ** The pipeline object *)

(** The attributes set by [__init__]. *)
Record DataIntegrationPipeline : Type := {
  currency_rates : gmap string Q;
  target_currency : string;
  target_unit : string
}.

Definition init : DataIntegrationPipeline := {|
  currency_rates :=
    <["Germany" := 1.07%Q]>
      (<["USA" := 1.0%Q]>
         (<["India" := 0.012%Q]>
            (<["UK" := 1.21%Q]>
               (<["Brazil" := 0.20%Q]> ∅))));
  target_currency := "USD";
  target_unit := "millions"
|}.

(** [d.get(key, dflt)] where the key is a cell of an object column. A null
    key is in no dictionary of country names. *)
Definition dict_get (d : gmap string Q) (key : option string) (dflt : Q) : Q :=
  match key with
  | Some k => default dflt (d !! k)
  | None => dflt
  end.

Definition convert_currency (self : DataIntegrationPipeline)
    (amount : float64) (country : option string) : float64 :=
  let rate := dict_get (currency_rates self) country 1 in
  fmul amount (Num rate).

(** ** Tables *)

(** A cell of an object column is null when it holds [None]. *)
Definition obj_isnull {A : Type} (c : option A) : bool :=
  match c with None => true | Some _ => false end.

(** Rows of the raw private-market table. *)
Module Raw.
Record t : Type := {
  company_name : option string;
  industry : option string;
  revenue_local : float64;
  ebitda_local : float64;
  valuation_multiple : float64;
  country : option string;
  fiscal_year : option Z;
  currency : option string
}.
End Raw.

(** Rows of the normalized private-market table, in the order of
    [final_columns]. *)
Module Normalized.
Record t : Type := {
  company_name : option string;
  industry : option string;
  country : option string;
  fiscal_year : option Z;
  revenue : float64;
  ebitda : float64;
  ebitda_margin : float64;
  valuation_multiple : float64
}.
End Normalized.

(** Rows of the benchmark table, raw or normalized. *)
Module Benchmark.
Record t : Type := {
  industry : option string;
  average_margin : float64;
  sector_growth_rate : float64;
  average_valuation_multiple : float64;
  market_size_billions : float64
}.

Definition set_average_margin (b : t) (x : float64) : t :=
  {| industry := industry b; average_margin := x;
     sector_growth_rate := sector_growth_rate b;
     average_valuation_multiple := average_valuation_multiple b;
     market_size_billions := market_size_billions b |}.

Definition set_sector_growth_rate (b : t) (x : float64) : t :=
  {| industry := industry b; average_margin := average_margin b;
     sector_growth_rate := x;
     average_valuation_multiple := average_valuation_multiple b;
     market_size_billions := market_size_billions b |}.

Definition set_average_valuation_multiple (b : t) (x : float64) : t :=
  {| industry := industry b; average_margin := average_margin b;
     sector_growth_rate := sector_growth_rate b;
     average_valuation_multiple := x;
     market_size_billions := market_size_billions b |}.

Definition set_market_size_billions (b : t) (x : float64) : t :=
  {| industry := industry b; average_margin := average_margin b;
     sector_growth_rate := sector_growth_rate b;
     average_valuation_multiple := average_valuation_multiple b;
     market_size_billions := x |}.
End Benchmark.

(** Rows of the result of [pd.merge]: the columns of the left table, then
    those of the right table without the key. *)
Module Merged.
Record t : Type := {
  left : Normalized.t;
  average_margin : float64;
  sector_growth_rate : float64;
  average_valuation_multiple : float64;
  market_size_billions : float64
}.
End Merged.

(** Rows of the integrated table. *)
Module Integrated.
Record t : Type := {
  company_name : option string;
  industry : option string;
  country : option string;
  fiscal_year : option Z;
  revenue : float64;
  ebitda : float64;
  ebitda_margin : float64;
  valuation_multiple : float64;
  average_margin : float64;
  sector_growth_rate : float64;
  average_valuation_multiple : float64;
  market_size_billions : float64;
  data_source : option string;
  currency : option string;
  units : option string;
  last_updated : option string;
  valuation_vs_sector_avg : float64;
  margin_vs_sector_avg : float64
}.

Definition columns : list string :=
  ["company_name"; "industry"; "country"; "fiscal_year";
   "revenue"; "ebitda"; "ebitda_margin"; "valuation_multiple";
   "average_margin"; "sector_growth_rate"; "average_valuation_multiple";
   "market_size_billions";
   "data_source"; "currency"; "units"; "last_updated";
   "valuation_vs_sector_avg"; "margin_vs_sector_avg"]%string.

(** One row of [df.isnull()], in the order of [columns]. *)
Definition isnull_row (r : t) : list bool :=
  [obj_isnull (company_name r); obj_isnull (industry r);
   obj_isnull (country r); obj_isnull (fiscal_year r);
   isnull (revenue r); isnull (ebitda r); isnull (ebitda_margin r);
   isnull (valuation_multiple r);
   isnull (average_margin r); isnull (sector_growth_rate r);
   isnull (average_valuation_multiple r); isnull (market_size_billions r);
   obj_isnull (data_source r); obj_isnull (currency r);
   obj_isnull (units r); obj_isnull (last_updated r);
   isnull (valuation_vs_sector_avg r); isnull (margin_vs_sector_avg r)].
End Integrated.

(** ** Series operations *)

(** [df.apply(f, axis=1)]: one cell per row. *)
Definition apply_rows {R A : Type} (f : R -> A) (df : list R) : list A :=
  map f df.

(** [s.round(decimals)]. *)
Definition series_round (decimals : nat) (s : list float64) : list float64 :=
  map (fround decimals) s.

(** [s1 / s2], [s1 - s2] and [s * k], cell by cell. *)
Definition series_div (s1 s2 : list float64) : list float64 :=
  zip_with fdiv s1 s2.

Definition series_sub (s1 s2 : list float64) : list float64 :=
  zip_with fsub s1 s2.

Definition series_mul_scalar (s : list float64) (k : float64) : list float64 :=
  map (fun x => fmul x k) s.

(** [df[col] = s] for a column that the rows already have. *)
Definition assign {R A : Type} (set : R -> A -> R) (df : list R) (s : list A)
    : list R :=
  zip_with set df s.

(** ** The private-record normalizer *)

(** [normalized[final_columns]]: the four kept columns of the copy and the
    four assigned ones. *)
Fixpoint select_final (df : list Raw.t)
    (revenue ebitda ebitda_margin valuation_multiple : list float64)
    : list Normalized.t :=
  match df, revenue, ebitda, ebitda_margin, valuation_multiple with
  | row :: df', r :: rs, e :: es, m :: ms, v :: vs =>
      {| Normalized.company_name := Raw.company_name row;
         Normalized.industry := Raw.industry row;
         Normalized.country := Raw.country row;
         Normalized.fiscal_year := Raw.fiscal_year row;
         Normalized.revenue := r;
         Normalized.ebitda := e;
         Normalized.ebitda_margin := m;
         Normalized.valuation_multiple := v |}
      :: select_final df' rs es ms vs
  | _, _, _, _, _ => []
  end.

Definition normalize_private_data (self : DataIntegrationPipeline)
    (df : list Raw.t) : list Normalized.t :=
  let revenue :=
    apply_rows
      (fun row => convert_currency self (Raw.revenue_local row) (Raw.country row))
      df in
  let ebitda :=
    apply_rows
      (fun row => convert_currency self (Raw.ebitda_local row) (Raw.country row))
      df in
  let revenue := series_round 2 revenue in
  let ebitda := series_round 2 ebitda in
  let valuation_multiple := series_round 2 (map Raw.valuation_multiple df) in
  let ebitda_margin :=
    series_round 2 (series_mul_scalar (series_div ebitda revenue) (Num 100)) in
  select_final df revenue ebitda ebitda_margin valuation_multiple.

(** ** The benchmark normalizer *)

Definition normalize_benchmark_data (df : list Benchmark.t) : list Benchmark.t :=
  let normalized := df in
  let normalized :=
    assign Benchmark.set_average_margin normalized
      (series_round 2 (map Benchmark.average_margin normalized)) in
  let normalized :=
    assign Benchmark.set_sector_growth_rate normalized
      (series_round 2 (map Benchmark.sector_growth_rate normalized)) in
  let normalized :=
    assign Benchmark.set_average_valuation_multiple normalized
      (series_round 2 (map Benchmark.average_valuation_multiple normalized)) in
  let normalized :=
    assign Benchmark.set_market_size_billions normalized
      (series_round 2 (map Benchmark.market_size_billions normalized)) in
  normalized.

(** ** The integrator *)

(** The rows of the right table whose key equals [key], in the order of the
    right table. A null key equals a null key, as in pandas. *)
Definition matches (key : option string) (right : list Benchmark.t)
    : list Benchmark.t :=
  filter (fun b => Benchmark.industry b = key) right.

(** A left row next to a right row, or next to nulls. *)
Definition join (p : Normalized.t) (ob : option Benchmark.t) : Merged.t :=
  match ob with
  | Some b =>
      {| Merged.left := p;
         Merged.average_margin := Benchmark.average_margin b;
         Merged.sector_growth_rate := Benchmark.sector_growth_rate b;
         Merged.average_valuation_multiple := Benchmark.average_valuation_multiple b;
         Merged.market_size_billions := Benchmark.market_size_billions b |}
  | None =>
      {| Merged.left := p;
         Merged.average_margin := NaN;
         Merged.sector_growth_rate := NaN;
         Merged.average_valuation_multiple := NaN;
         Merged.market_size_billions := NaN |}
  end.

(** The rows that one left row yields. *)
Definition merge_row (right : list Benchmark.t) (p : Normalized.t)
    : list Merged.t :=
  match matches (Normalized.industry p) right with
  | [] => [join p None]
  | bs => map (fun b => join p (Some b)) bs
  end.

(** [pd.merge(left, right, on='industry', how='left')]: the left rows in
    their order, each with its matches in the order of the right table. *)
Definition merge_left (left : list Normalized.t) (right : list Benchmark.t)
    : list Merged.t :=
  left ≫= merge_row right.

(** The merged rows with the four metadata columns and the two delta
    columns added. *)
Fixpoint stamp (integrated : list Merged.t)
    (data_source currency units last_updated : string)
    (valuation_vs_sector_avg margin_vs_sector_avg : list float64)
    : list Integrated.t :=
  match integrated, valuation_vs_sector_avg, margin_vs_sector_avg with
  | row :: integrated', v :: vs, m :: ms =>
      let p := Merged.left row in
      {| Integrated.company_name := Normalized.company_name p;
         Integrated.industry := Normalized.industry p;
         Integrated.country := Normalized.country p;
         Integrated.fiscal_year := Normalized.fiscal_year p;
         Integrated.revenue := Normalized.revenue p;
         Integrated.ebitda := Normalized.ebitda p;
         Integrated.ebitda_margin := Normalized.ebitda_margin p;
         Integrated.valuation_multiple := Normalized.valuation_multiple p;
         Integrated.average_margin := Merged.average_margin row;
         Integrated.sector_growth_rate := Merged.sector_growth_rate row;
         Integrated.average_valuation_multiple :=
           Merged.average_valuation_multiple row;
         Integrated.market_size_billions := Merged.market_size_billions row;
         Integrated.data_source := Some data_source;
         Integrated.currency := Some currency;
         Integrated.units := Some units;
         Integrated.last_updated := Some last_updated;
         Integrated.valuation_vs_sector_avg := v;
         Integrated.margin_vs_sector_avg := m |}
      :: stamp integrated' data_source currency units last_updated vs ms
  | _, _, _ => []
  end.

(** [now] is the text that [datetime.now().strftime(...)] returns when the
    integrator runs. *)
Definition integrate_data (self : DataIntegrationPipeline) (now : string)
    (private_df : list Normalized.t) (benchmark_df : list Benchmark.t)
    : list Integrated.t :=
  let integrated := merge_left private_df benchmark_df in
  let valuation_vs_sector_avg :=
    series_round 2
      (series_sub
         (map (fun r => Normalized.valuation_multiple (Merged.left r)) integrated)
         (map Merged.average_valuation_multiple integrated)) in
  let margin_vs_sector_avg :=
    series_round 2
      (series_sub
         (map (fun r => Normalized.ebitda_margin (Merged.left r)) integrated)
         (map Merged.average_margin integrated)) in
  stamp integrated "Integrated_Private_and_Benchmark"
    (target_currency self) (target_unit self) now
    valuation_vs_sector_avg margin_vs_sector_avg.

(** ** The validator *)

Record ValidationReport : Type := {
  total_records : nat;
  missing_values : gmap string nat;
  duplicate_companies : nat;
  negative_values : gmap string nat;
  data_quality_score : float64
}.

(** [s.sum()] on a Series of booleans: [True] counts 1, [False] counts 0. *)
Definition count_true (s : list bool) : nat :=
  sum_list_with Nat.b2n s.

(** [df.isnull()]. *)
Definition df_isnull (df : list Integrated.t) : list (list bool) :=
  map Integrated.isnull_row df.

(** [mask.sum()] on a table of booleans with [ncols] columns: one count
    per column. *)
Definition column_sums (ncols : nat) (mask : list (list bool)) : list nat :=
  map (fun j => count_true (map (fun row => default false (row !! j)) mask))
      (seq 0 ncols).

(** [s.duplicated()] with the default [keep='first']: a cell is flagged
    when its value occurred at an earlier position. *)
Fixpoint duplicated_from (seen : gset (option string)) (s : list (option string))
    : list bool :=
  match s with
  | [] => []
  | x :: s' => bool_decide (x ∈ seen) :: duplicated_from ({[x]} ∪ seen) s'
  end.

Definition duplicated (s : list (option string)) : list bool :=
  duplicated_from ∅ s.

(** [df.shape]. *)
Definition shape (df : list Integrated.t) : nat * nat :=
  (length df, length Integrated.columns).

(** [validation_results['data_quality_score'] = x]. *)
Definition set_data_quality_score (v : ValidationReport) (x : float64)
    : ValidationReport :=
  {| total_records := total_records v;
     missing_values := missing_values v;
     duplicate_companies := duplicate_companies v;
     negative_values := negative_values v;
     data_quality_score := x |}.

Definition validate_data (df : list Integrated.t) : ValidationReport :=
  let validation_results :=
    {| total_records := length df;
       missing_values :=
         list_to_map (zip Integrated.columns
                          (column_sums (shape df).2 (df_isnull df)));
       duplicate_companies :=
         count_true (duplicated (map Integrated.company_name df));
       negative_values :=
         <["revenue" :=
             count_true (map (fun r => flt0 (Integrated.revenue r)) df)]>
           (<["ebitda" :=
                count_true (map (fun r => flt0 (Integrated.ebitda r)) df)]> ∅);
       data_quality_score := Num 100 |} in
  let total_cells := ((shape df).1 * (shape df).2)%nat in
  let missing_cells := sum_list (column_sums (shape df).2 (df_isnull df)) in
  set_data_quality_score validation_results
    (fround 2
       (fmul
          (fdiv (of_int (Z.of_nat total_cells - Z.of_nat missing_cells))
                (of_int (Z.of_nat total_cells)))
          (Num 100))).

(** The two operands of the division in [validate_data], and the warning
    that this division gives. The division is not guarded. *)
Definition score_operands (df : list Integrated.t) : float64 * float64 :=
  let total_cells := ((shape df).1 * (shape df).2)%nat in
  let missing_cells := sum_list (column_sums (shape df).2 (df_isnull df)) in
  (of_int (Z.of_nat total_cells - Z.of_nat missing_cells),
   of_int (Z.of_nat total_cells)).

Definition validate_data_warning (df : list Integrated.t)
    : option RuntimeWarning :=
  fdiv_warning (score_operands df).1 (score_operands df).2.

(** ** Notions used to state the properties *)

(** What the column program of [normalize_private_data] does to one row. *)
Definition normalize_row (self : DataIntegrationPipeline) (row : Raw.t)
    : Normalized.t :=
  let revenue :=
    fround 2 (convert_currency self (Raw.revenue_local row) (Raw.country row)) in
  let ebitda :=
    fround 2 (convert_currency self (Raw.ebitda_local row) (Raw.country row)) in
  {| Normalized.company_name := Raw.company_name row;
     Normalized.industry := Raw.industry row;
     Normalized.country := Raw.country row;
     Normalized.fiscal_year := Raw.fiscal_year row;
     Normalized.revenue := revenue;
     Normalized.ebitda := ebitda;
     Normalized.ebitda_margin := fround 2 (fmul (fdiv ebitda revenue) (Num 100));
     Normalized.valuation_multiple := fround 2 (Raw.valuation_multiple row) |}.

(** What the column program of [normalize_benchmark_data] does to one
    row. *)
Definition normalize_benchmark_row (b : Benchmark.t) : Benchmark.t :=
  {| Benchmark.industry := Benchmark.industry b;
     Benchmark.average_margin := fround 2 (Benchmark.average_margin b);
     Benchmark.sector_growth_rate := fround 2 (Benchmark.sector_growth_rate b);
     Benchmark.average_valuation_multiple :=
       fround 2 (Benchmark.average_valuation_multiple b);
     Benchmark.market_size_billions :=
       fround 2 (Benchmark.market_size_billions b) |}.

(** What [integrate_data] adds to one merged row. *)
Definition integrate_row (self : DataIntegrationPipeline) (now : string)
    (row : Merged.t) : Integrated.t :=
  let p := Merged.left row in
  {| Integrated.company_name := Normalized.company_name p;
     Integrated.industry := Normalized.industry p;
     Integrated.country := Normalized.country p;
     Integrated.fiscal_year := Normalized.fiscal_year p;
     Integrated.revenue := Normalized.revenue p;
     Integrated.ebitda := Normalized.ebitda p;
     Integrated.ebitda_margin := Normalized.ebitda_margin p;
     Integrated.valuation_multiple := Normalized.valuation_multiple p;
     Integrated.average_margin := Merged.average_margin row;
     Integrated.sector_growth_rate := Merged.sector_growth_rate row;
     Integrated.average_valuation_multiple :=
       Merged.average_valuation_multiple row;
     Integrated.market_size_billions := Merged.market_size_billions row;
     Integrated.data_source := Some "Integrated_Private_and_Benchmark"%string;
     Integrated.currency := Some (target_currency self);
     Integrated.units := Some (target_unit self);
     Integrated.last_updated := Some now;
     Integrated.valuation_vs_sector_avg :=
       fround 2 (fsub (Normalized.valuation_multiple p)
                      (Merged.average_valuation_multiple row));
     Integrated.margin_vs_sector_avg :=
       fround 2 (fsub (Normalized.ebitda_margin p) (Merged.average_margin row)) |}.

(** The number of benchmark rows that share the industry of [p]. *)
Definition match_count (benchmark_df : list Benchmark.t) (p : Normalized.t)
    : nat :=
  length (matches (Normalized.industry p) benchmark_df).

(** The left-table columns of an integrated row. *)
Definition private_part (r : Integrated.t) : Normalized.t :=
  {| Normalized.company_name := Integrated.company_name r;
     Normalized.industry := Integrated.industry r;
     Normalized.country := Integrated.country r;
     Normalized.fiscal_year := Integrated.fiscal_year r;
     Normalized.revenue := Integrated.revenue r;
     Normalized.ebitda := Integrated.ebitda r;
     Normalized.ebitda_margin := Integrated.ebitda_margin r;
     Normalized.valuation_multiple := Integrated.valuation_multiple r |}.

(** The right-table columns of an integrated row agree with a benchmark
    row. *)
Definition benchmark_part_is (r : Integrated.t) (b : Benchmark.t) : Prop :=
  Integrated.average_margin r = Benchmark.average_margin b /\
  Integrated.sector_growth_rate r = Benchmark.sector_growth_rate b /\
  Integrated.average_valuation_multiple r = Benchmark.average_valuation_multiple b /\
  Integrated.market_size_billions r = Benchmark.market_size_billions b.

(** The benchmark-derived columns and the two deltas are all null. *)
Definition benchmark_part_null (r : Integrated.t) : Prop :=
  Integrated.average_margin r = NaN /\
  Integrated.sector_growth_rate r = NaN /\
  Integrated.average_valuation_multiple r = NaN /\
  Integrated.market_size_billions r = NaN /\
  Integrated.valuation_vs_sector_avg r = NaN /\
  Integrated.margin_vs_sector_avg r = NaN.

(** The number of null cells of a table, counted row by row. *)
Definition missing_cells_of (df : list Integrated.t) : nat :=
  sum_list_with (fun r => count_true (Integrated.isnull_row r)) df.

(** How often [v] occurs in a column. *)
Definition multiplicity (v : option string) (s : list (option string)) : nat :=
  length (filter (fun x => x = v) s).

(** How many cells holding [v] are flagged by [flags]. *)
Definition flagged_with (v : option string) (s : list (option string))
    (flags : list bool) : nat :=
  length (filter (fun c => c.2 = true /\ c.1 = v) (zip s flags)).

(** Every rate of the table is positive. *)
Definition rates_positive (self : DataIntegrationPipeline) : Prop :=
  forall k r, currency_rates self !! k = Some r -> (0 < r)%Q.

(** The rows of the scenarios of the specification. *)
Definition company_a : Raw.t :=
  {| Raw.company_name := Some "Company_A"%string;
     Raw.industry := Some "Technology"%string;
     Raw.revenue_local := Num 100;
     Raw.ebitda_local := Num 20;
     Raw.valuation_multiple := Num 10;
     Raw.country := Some "Germany"%string;
     Raw.fiscal_year := Some 2024%Z;
     Raw.currency := Some "EUR"%string |}.

Definition technology : Benchmark.t :=
  {| Benchmark.industry := Some "Technology"%string;
     Benchmark.average_margin := Num 18;
     Benchmark.sector_growth_rate := Num 5;
     Benchmark.average_valuation_multiple := Num 9;
     Benchmark.market_size_billions := Num 100 |}.

(** A second benchmark row for the same industry. *)
Definition technology' : Benchmark.t :=
  {| Benchmark.industry := Some "Technology"%string;
     Benchmark.average_margin := Num 25;
     Benchmark.sector_growth_rate := Num 7;
     Benchmark.average_valuation_multiple := Num 12;
     Benchmark.market_size_billions := Num 300 |}.

(** A company that reports no revenue. *)
Definition no_revenue : Raw.t :=
  {| Raw.company_name := Some "Company_B"%string;
     Raw.industry := Some "Energy"%string;
     Raw.revenue_local := Num 0;
     Raw.ebitda_local := Num 20;
     Raw.valuation_multiple := Num 8;
     Raw.country := Some "USA"%string;
     Raw.fiscal_year := Some 2024%Z;
     Raw.currency := Some "USD"%string |}.

(** A company that reports neither revenue nor ebitda. *)
Definition dormant : Raw.t :=
  {| Raw.company_name := Some "Company_C"%string;
     Raw.industry := Some "Retail"%string;
     Raw.revenue_local := Num 0;
     Raw.ebitda_local := Num 0;
     Raw.valuation_multiple := Num 6;
     Raw.country := Some "Brazil"%string;
     Raw.fiscal_year := Some 2024%Z;
     Raw.currency := Some "BRL"%string |}.

(** An integrated row that holds a company name and nothing else. *)
Definition named (name : option string) : Integrated.t :=
  {| Integrated.company_name := name; Integrated.industry := None;
     Integrated.country := None; Integrated.fiscal_year := None;
     Integrated.revenue := NaN; Integrated.ebitda := NaN;
     Integrated.ebitda_margin := NaN; Integrated.valuation_multiple := NaN;
     Integrated.average_margin := NaN; Integrated.sector_growth_rate := NaN;
     Integrated.average_valuation_multiple := NaN;
     Integrated.market_size_billions := NaN;
     Integrated.data_source := None; Integrated.currency := None;
     Integrated.units := None; Integrated.last_updated := None;
     Integrated.valuation_vs_sector_avg := NaN;
     Integrated.margin_vs_sector_avg := NaN |}.

(** An integrated row whose cells are all null. *)
Definition all_null : Integrated.t := named None.

(** ** The simulated data source and the orchestrator *)

Definition industries : list string :=
  ["Technology"; "Healthcare"; "Financial Services";
   "Consumer Goods"; "Energy"; "Manufacturing";
   "Retail"; "Telecommunications"; "Real Estate"; "Transportation"]%string.

Definition countries : list string :=
  ["Germany"; "USA"; "India"; "UK"; "Brazil"]%string.

(** The values that the generator of numpy hands to
    [simulate_private_market_data], draw by draw: entry [i] of
    [np.random.choice(a, n)] is the element of [a] at position
    [.._choice i], entry [i] of [np.random.uniform(lo, hi, n)] is
    [.._uniform i]. The generator itself is not modelled. *)
Record PrivateDraws : Type := {
  industry_choice : nat -> nat;
  revenue_local_uniform : nat -> Q;
  ebitda_local_uniform : nat -> Q;
  valuation_multiple_uniform : nat -> Q;
  country_choice : nat -> nat;
  currency_choice : nat -> nat
}.

(** The same for [simulate_industry_benchmark_data]. *)
Record BenchmarkDraws : Type := {
  average_margin_uniform : nat -> Q;
  sector_growth_rate_uniform : nat -> Q;
  average_valuation_multiple_uniform : nat -> Q;
  market_size_billions_uniform : nat -> Q
}.

(** One byte of a string. *)
Definition byte (z : Z) : Ascii.ascii := Ascii.ascii_of_N (Z.to_N z).

(** [chr(code)]: the one-character string of a code point, as its UTF-8
    bytes. Python accepts the codes [0 .. 0x10FFFF] and raises
    [ValueError] for any other; the properties below stay within them. (A
    surrogate code, which a Python [str] can hold although UTF-8 proper
    does not encode it, is written with the same three-byte pattern.) *)
Definition chr (code : Z) : string :=
  if (code <? 128)%Z then
    String (byte code) ""
  else if (code <? 2048)%Z then
    String (byte (192 + code / 64))
      (String (byte (128 + code mod 64)) "")
  else if (code <? 65536)%Z then
    String (byte (224 + code / 4096))
      (String (byte (128 + (code / 64) mod 64))
         (String (byte (128 + code mod 64)) ""))
  else
    String (byte (240 + code / 262144))
      (String (byte (128 + (code / 4096) mod 64))
         (String (byte (128 + (code / 64) mod 64))
            (String (byte (128 + code mod 64)) ""))).

(** [f'Company_{chr(65+i)}']. *)
Definition company_label (i : nat) : string :=
  ("Company_" +:+ chr (65 + Z.of_nat i))%string.

(** The chain of conditionals that turns a drawn country into a currency
    code. *)
Definition currency_label (c : option string) : string :=
  if decide (c = Some "Germany"%string) then "EUR"
  else if decide (c = Some "USA"%string) then "USD"
  else if decide (c = Some "India"%string) then "INR"
  else if decide (c = Some "UK"%string) then "GBP"
  else "BRL".

(** [pd.DataFrame(data)]: row [i] takes entry [i] of every column. *)
Definition simulate_private_market_data (rng : PrivateDraws)
    (num_companies : nat) : list Raw.t :=
  map (fun i =>
         {| Raw.company_name := Some (company_label i);
            Raw.industry :=
              take num_companies industries !! industry_choice rng i;
            Raw.revenue_local := Num (revenue_local_uniform rng i);
            Raw.ebitda_local := Num (ebitda_local_uniform rng i);
            Raw.valuation_multiple := Num (valuation_multiple_uniform rng i);
            Raw.country := countries !! country_choice rng i;
            Raw.fiscal_year := Some 2024%Z;
            Raw.currency :=
              Some (currency_label (countries !! currency_choice rng i)) |})
      (seq 0 num_companies).

Definition simulate_industry_benchmark_data (rng : BenchmarkDraws)
    : list Benchmark.t :=
  imap (fun i name =>
          {| Benchmark.industry := Some name;
             Benchmark.average_margin := Num (average_margin_uniform rng i);
             Benchmark.sector_growth_rate :=
               Num (sector_growth_rate_uniform rng i);
             Benchmark.average_valuation_multiple :=
               Num (average_valuation_multiple_uniform rng i);
             Benchmark.market_size_billions :=
               Num (market_size_billions_uniform rng i) |})
       industries.

(** The pair that [run_pipeline] returns. Creating the directories,
    writing the three CSV files and printing the progress lines do not
    enter the returned values and are left out. *)
Definition run_pipeline (self : DataIntegrationPipeline) (now : string)
    (private_rng : PrivateDraws) (benchmark_rng : BenchmarkDraws)
    : list Integrated.t * ValidationReport :=
  let private_data_raw := simulate_private_market_data private_rng 10 in
  let benchmark_data_raw := simulate_industry_benchmark_data benchmark_rng in
  let private_normalized := normalize_private_data self private_data_raw in
  let benchmark_normalized := normalize_benchmark_data benchmark_data_raw in
  let integrated_data :=
    integrate_data self now private_normalized benchmark_normalized in
  let validation_results := validate_data integrated_data in
  (integrated_data, validation_results).

(** ** Further notions *)

(** The draws lie where numpy puts them: a choice inside its list, a
    uniform draw between its bounds. *)
Definition private_draws_in_range (rng : PrivateDraws) (num_companies : nat)
    : Prop :=
  forall i, i < num_companies ->
    industry_choice rng i < length (take num_companies industries) /\
    (50 <= revenue_local_uniform rng i <= 500)%Q /\
    (10 <= ebitda_local_uniform rng i <= 100)%Q /\
    (6 <= valuation_multiple_uniform rng i <= 16)%Q /\
    country_choice rng i < length countries /\
    currency_choice rng i < length countries.

(** A raw row with another currency label. *)
Definition with_currency (row : Raw.t) (label : option string) : Raw.t :=
  {| Raw.company_name := Raw.company_name row;
     Raw.industry := Raw.industry row;
     Raw.revenue_local := Raw.revenue_local row;
     Raw.ebitda_local := Raw.ebitda_local row;
     Raw.valuation_multiple := Raw.valuation_multiple row;
     Raw.country := Raw.country row;
     Raw.fiscal_year := Raw.fiscal_year row;
     Raw.currency := label |}.

(** The number of rows whose cell in column [j] is null. *)
Definition column_null_count (j : nat) (df : list Integrated.t) : nat :=
  count_true (map (fun r => default false (Integrated.isnull_row r !! j)) df).

(** The number of distinct values of a column. *)
Definition distinct_count (s : list (option string)) : nat :=
  size (list_to_set s : gset (option string)).

(** Two benchmark rows with the same key and equal metrics. *)
Definition benchmark_equiv (b1 b2 : Benchmark.t) : Prop :=
  Benchmark.industry b1 = Benchmark.industry b2 /\
  feq (Benchmark.average_margin b1) (Benchmark.average_margin b2) /\
  feq (Benchmark.sector_growth_rate b1) (Benchmark.sector_growth_rate b2) /\
  feq (Benchmark.average_valuation_multiple b1)
      (Benchmark.average_valuation_multiple b2) /\
  feq (Benchmark.market_size_billions b1) (Benchmark.market_size_billions b2).

(** A float cell that holds a number. *)
Definition finite (x : float64) : Prop :=
  match x with Num _ => True | _ => False end.

(** A normalized private row, and a benchmark row, without a null cell and
    with numbers in every float cell. *)
Definition complete_private (p : Normalized.t) : Prop :=
  Normalized.company_name p <> None /\
  Normalized.industry p <> None /\
  Normalized.country p <> None /\
  Normalized.fiscal_year p <> None /\
  finite (Normalized.revenue p) /\
  finite (Normalized.ebitda p) /\
  finite (Normalized.ebitda_margin p) /\
  finite (Normalized.valuation_multiple p).

Definition complete_benchmark (b : Benchmark.t) : Prop :=
  finite (Benchmark.average_margin b) /\
  finite (Benchmark.sector_growth_rate b) /\
  finite (Benchmark.average_valuation_multiple b) /\
  finite (Benchmark.market_size_billions b).

(** The four metadata cells of an integrated row. *)
Definition metadata (r : Integrated.t)
    : option string * option string * option string * option string :=
  (Integrated.data_source r, Integrated.currency r,
   Integrated.units r, Integrated.last_updated r).

(** A company whose amounts need rounding. *)
Definition fractional : Raw.t :=
  {| Raw.company_name := Some "Company_F"%string;
     Raw.industry := Some "Energy"%string;
     Raw.revenue_local := Num 33.333;
     Raw.ebitda_local := Num 7.777;
     Raw.valuation_multiple := Num 9.876;
     Raw.country := Some "Germany"%string;
     Raw.fiscal_year := Some 2024%Z;
     Raw.currency := Some "EUR"%string |}.

(** A benchmark row whose metrics need rounding. *)
Definition fractional_benchmark : Benchmark.t :=
  {| Benchmark.industry := Some "Energy"%string;
     Benchmark.average_margin := Num 21.4567;
     Benchmark.sector_growth_rate := Num 3.14159;
     Benchmark.average_valuation_multiple := Num 8.8881;
     Benchmark.market_size_billions := Num 123.4549 |}.

(** A company with a loss, and one whose negative revenue is below half a
    cent. *)
Definition loss_maker : Raw.t :=
  {| Raw.company_name := Some "Company_D"%string;
     Raw.industry := Some "Retail"%string;
     Raw.revenue_local := Num 100;
     Raw.ebitda_local := Num (-20);
     Raw.valuation_multiple := Num 7;
     Raw.country := Some "India"%string;
     Raw.fiscal_year := Some 2024%Z;
     Raw.currency := Some "INR"%string |}.

Definition tiny_loss : Raw.t :=
  {| Raw.company_name := Some "Company_E"%string;
     Raw.industry := Some "Retail"%string;
     Raw.revenue_local := Num (-0.001);
     Raw.ebitda_local := Num (-0.001);
     Raw.valuation_multiple := Num 7;
     Raw.country := Some "USA"%string;
     Raw.fiscal_year := Some 2024%Z;
     Raw.currency := Some "USD"%string |}.

(** Draws for examples: company [i] is in industry [i], in Germany, with
    revenue 100, ebitda 20 and multiple 10; every benchmark metric is 12. *)
Definition sample_private_draws : PrivateDraws :=
  {| industry_choice := fun i => i;
     revenue_local_uniform := fun _ => 100%Q;
     ebitda_local_uniform := fun _ => 20%Q;
     valuation_multiple_uniform := fun _ => 10%Q;
     country_choice := fun _ => 0;
     currency_choice := fun _ => 4 |}.

Definition sample_benchmark_draws : BenchmarkDraws :=
  {| average_margin_uniform := fun _ => 12%Q;
     sector_growth_rate_uniform := fun _ => 12%Q;
     average_valuation_multiple_uniform := fun _ => 12%Q;
     market_size_billions_uniform := fun _ => 12%Q |}.

(** * Properties *)

(** ** Arithmetic of the number model *)

Section FloatFacts.

Local Open Scope Q_scope.

Lemma feq_refl (x : float64) : feq x x.
Proof. destruct x; simpl; auto with qarith. Qed.

Lemma feq_sym (x y : float64) : feq x y -> feq y x.
Proof. destruct x, y; simpl; auto with qarith. Qed.

Lemma feq_trans (x y z : float64) : feq x y -> feq y z -> feq x z.
Proof.
  destruct x, y, z; simpl; try tauto.
  intros H1 H2. now rewrite H1.
Qed.

Lemma feq_eq (x y : float64) : x = y -> feq x y.
Proof. intros ->. apply feq_refl. Qed.

(** The fractional part that [rint] inspects lies in [0, 1). *)
Lemma frac_bounds (q : Q) :
  0 <= q - inject_Z (Qfloor q) /\ q - inject_Z (Qfloor q) < 1.
Proof.
  pose proof (Qfloor_le q) as Hlo.
  pose proof (Qlt_floor q) as Hhi.
  rewrite inject_Z_plus in Hhi.
  change (inject_Z 1) with 1 in Hhi.
  split; lra.
Qed.

(** [rint] moves a number by at most one half. *)
Lemma rint_close (q : Q) : Qabs (q - inject_Z (rint q)) <= 1 # 2.
Proof.
  unfold rint.
  destruct (frac_bounds q) as [Hlo Hhi].
  set (f := Qfloor q) in *.
  apply Qabs_Qle_condition.
  destruct (Qcompare_spec (q - inject_Z f) (1 # 2)) as [He | Hl | Hg].
  - destruct (Z.even f).
    + split; lra.
    + rewrite inject_Z_plus. change (inject_Z 1) with 1. split; lra.
  - split; lra.
  - rewrite inject_Z_plus. change (inject_Z 1) with 1. split; lra.
Qed.

Lemma rint_comp (q q' : Q) : q == q' -> rint q = rint q'.
Proof.
  intros H. unfold rint.
  rewrite (Qfloor_comp _ _ H).
  now rewrite (Qcompare_comp _ _ (Qminus_comp _ _ H _ _ (Qeq_refl _)) _ _ (Qeq_refl (1 # 2))).
Qed.

(** An integer is its own rounding. *)
Lemma rint_inject_Z (k : Z) : rint (inject_Z k) = k.
Proof.
  unfold rint. rewrite Qfloor_Z.
  assert (H : inject_Z k - inject_Z k == 0) by ring.
  rewrite (Qcompare_comp _ _ H _ _ (Qeq_refl (1 # 2))).
  reflexivity.
Qed.

(** The result of [round(decimals)] has that many decimals. *)
Lemma fround_has_decimals (d : nat) (x : float64) : has_decimals d (fround d x).
Proof.
  destruct x; simpl; trivial.
  eexists. reflexivity.
Qed.

(** [round(2)] of a finite number is finite and within half a cent. *)
Lemma fround2_close (a : Q) :
  exists b, fround 2 (Num a) = Num b /\ Qabs (b - a) <= 1 # 200.
Proof.
  eexists. split; [reflexivity |].
  change (inject_Z (10 ^ Z.of_nat 2)) with (100 # 1).
  pose proof (rint_close (a * (100 # 1))) as H.
  apply Qabs_Qle_condition in H. apply Qabs_Qle_condition.
  set (k := inject_Z (rint (a * (100 # 1)))) in *.
  assert (Hk : k / (100 # 1) == k * (1 # 100)) by (unfold Qdiv; reflexivity).
  rewrite Hk. split; lra.
Qed.

Lemma binary64_slack (x : Q) : 0 <= Qabs x * binary64_eps.
Proof.
  apply Qmult_le_0_compat; [apply Qabs_nonneg | discriminate].
Qed.

Lemma binary64_close_refl (y x : Q) : y == x -> binary64_close y x.
Proof.
  intros H. unfold binary64_close.
  assert (E : y - x == 0) by (rewrite H; ring).
  rewrite E. apply binary64_slack.
Qed.

Lemma half_cent_close (y x : Q) : Qabs (y - x) <= 1 # 200 -> cent_close y x.
Proof.
  intros H. unfold cent_close.
  pose proof (binary64_slack x). lra.
Qed.

Lemma fround2_cent_close (a : Q) :
  exists b, fround 2 (Num a) = Num b /\ cent_close b a.
Proof.
  destruct (fround2_close a) as (b & Hb & Hc).
  exists b. split; [exact Hb | apply half_cent_close, Hc].
Qed.

Lemma fround_comp (d : nat) (x y : float64) :
  feq x y -> feq (fround d x) (fround d y).
Proof.
  destruct x, y; simpl; try tauto.
  intros H.
  rewrite (rint_comp (q * _) (q0 * inject_Z (10 ^ Z.of_nat d))); [reflexivity |].
  now rewrite H.
Qed.

(** A whole number is unchanged by [round(2)]. *)
Lemma fround2_whole (a : Q) (k : Z) :
  a == inject_Z k -> feq (fround 2 (Num a)) (Num (inject_Z k)).
Proof.
  intros H. simpl.
  change (inject_Z (10 ^ Z.of_nat 2)) with (inject_Z 100).
  rewrite (rint_comp _ (inject_Z (k * 100))).
  - rewrite rint_inject_Z, inject_Z_mult. field.
  - rewrite H, inject_Z_mult. reflexivity.
Qed.

(** Multiplying by one changes nothing. *)
Lemma fmul_one (x : float64) : feq (fmul x (Num 1)) x.
Proof. destruct x; simpl; trivial. ring. Qed.

(** Scaling by a positive rate distributes over addition, for every value
    of the number model. *)
Lemma fmul_pos_distr (r : Q) (a b : float64) :
  0 < r ->
  feq (fmul (fadd a b) (Num r)) (fadd (fmul a (Num r)) (fmul b (Num r))).
Proof.
  intros Hr.
  assert (Hc : (r ?= 0) = Gt) by (apply Qgt_alt; exact Hr).
  destruct a, b; simpl; unfold inf_scaled; rewrite ?Hc; simpl; trivial.
  ring.
Qed.

(** On finite amounts the same holds for every rate. *)
Lemma fmul_num_distr (r x y : Q) :
  feq (fmul (fadd (Num x) (Num y)) (Num r))
      (fadd (fmul (Num x) (Num r)) (fmul (Num y) (Num r))).
Proof. simpl. ring. Qed.

End FloatFacts.

(** ** The currency converter *)

Lemma init_rates_positive : rates_positive init.
Proof.
  intros k r. unfold init; simpl.
  rewrite !lookup_insert, lookup_empty.
  repeat case_decide; intros [= <-]; reflexivity.
Qed.

Lemma dict_get_missing (d : gmap string Q) (k : string) (dflt : Q) :
  d !! k = None -> dict_get d (Some k) dflt = dflt.
Proof. intros H. simpl. now rewrite H. Qed.

Lemma dict_get_present (d : gmap string Q) (k : string) (dflt r : Q) :
  d !! k = Some r -> dict_get d (Some k) dflt = r.
Proof. intros H. simpl. now rewrite H. Qed.

(** Whatever the country cell holds, the rate used is one of the table or
    the fallback [1]. *)
Lemma dict_get_cases (d : gmap string Q) (key : option string) (dflt : Q) :
  dict_get d key dflt = dflt \/
  exists k, key = Some k /\ d !! k = Some (dict_get d key dflt).
Proof.
  destruct key as [k |]; simpl; [| now left].
  destruct (d !! k) eqn:E; simpl; [right; eauto | now left].
Qed.

(** C7, both halves: for a country that the rate table does not list the
    amount comes back unchanged (rate 1.0); for a listed country the amount
    times its rate comes back: on a number [x] a number that is the
    product [x * rate] as far as binary64 computes it (while the product
    neither overflows nor underflows), on an infinity or NaN that same
    value when the rate is positive. The converter is a total function:
    there is no input on which it fails. *)
Theorem convert_currency_fallback (self : DataIntegrationPipeline)
    (amount : float64) (country : string) :
  (currency_rates self !! country = None ->
   feq (convert_currency self amount (Some country)) amount) /\
  (forall rate, currency_rates self !! country = Some rate ->
     (forall x, amount = Num x -> binary64_normal (x * rate) ->
        exists y, convert_currency self amount (Some country) = Num y /\
                  binary64_close y (x * rate)) /\
     ((0 < rate)%Q -> isnull amount = true \/ is_inf amount = true ->
        convert_currency self amount (Some country) = amount)).
Proof.
  unfold convert_currency. split.
  - intros H. rewrite (dict_get_missing _ _ _ H). apply fmul_one.
  - intros rate H. rewrite (dict_get_present _ _ _ _ H). split.
    + intros x -> _. eexists. split; [reflexivity |].
      apply binary64_close_refl. reflexivity.
    + intros Hr Hkind.
      assert (Hc : (rate ?= 0)%Q = Gt) by (apply Qgt_alt; exact Hr).
      destruct amount; simpl in *; unfold inf_scaled; rewrite ?Hc;
        try reflexivity.
      destruct Hkind; discriminate.
Qed.

Lemma convert_currency_fallback_witness :
  feq (convert_currency init (Num 2.5) (Some "France"%string)) (Num 2.5) /\
  (exists y, convert_currency init (Num 2.5) (Some "UK"%string) = Num y /\
             binary64_close y 3.025) /\
  convert_currency init NegInf (Some "India"%string) = NegInf.
Proof.
  repeat apply conj.
  - apply (proj1 (convert_currency_fallback init (Num 2.5) "France")).
    vm_compute. reflexivity.
  - destruct (proj1 (proj2 (convert_currency_fallback init (Num 2.5) "UK")
                       1.21%Q eq_refl) 2.5%Q eq_refl) as [y [Hy Hc]].
    + right. split.
      * vm_compute. intros H. discriminate H.
      * unfold binary64_safe. vm_compute. intros H. discriminate H.
    + exists y. split; [exact Hy |].
      unfold binary64_close in *.
      assert (E : (2.5 * 1.21 == 3.025)%Q) by reflexivity.
      rewrite <- E. exact Hc.
  - apply (proj2 (proj2 (convert_currency_fallback init NegInf "India")
                    0.012%Q eq_refl)).
    + reflexivity.
    + right. reflexivity.
Defined.

(** C8: conversion is additive. On finite amounts it is so for any rate
    table; with the positive rates of the pipeline it is so for every value
    of the number model, infinities and NaN included. The equality is that
    of exact rational arithmetic. *)
Theorem convert_currency_linear (a b : float64) (c : option string) :
  (forall self x y, a = Num x -> b = Num y ->
     feq (convert_currency self (fadd a b) c)
         (fadd (convert_currency self a c) (convert_currency self b c))) /\
  feq (convert_currency init (fadd a b) c)
      (fadd (convert_currency init a c) (convert_currency init b c)).
Proof.
  split.
  - intros self x y -> ->. unfold convert_currency. apply fmul_num_distr.
  - unfold convert_currency. apply fmul_pos_distr.
    destruct (dict_get_cases (currency_rates init) c 1) as [-> | (k & _ & H)].
    + reflexivity.
    + exact (init_rates_positive _ _ H).
Qed.

Lemma convert_currency_linear_witness :
  feq (convert_currency init (fadd (Num 100) (Num 20)) (Some "Germany"%string))
      (fadd (convert_currency init (Num 100) (Some "Germany"%string))
            (convert_currency init (Num 20) (Some "Germany"%string))).
Proof.
  apply (proj1 (convert_currency_linear (Num 100) (Num 20) (Some "Germany"%string))
           init 100%Q 20%Q); reflexivity.
Defined.

(** ** The private-record normalizer *)

(** The column program acts row by row. *)
Lemma normalize_private_data_rows (self : DataIntegrationPipeline)
    (df : list Raw.t) :
  normalize_private_data self df = map (normalize_row self) df.
Proof.
  unfold normalize_private_data, apply_rows, series_round, series_mul_scalar,
    series_div.
  induction df as [| row df IH]; simpl; [reflexivity |].
  unfold normalize_row at 1. f_equal. exact IH.
Qed.

Lemma normalize_private_data_length (self : DataIntegrationPipeline)
    (df : list Raw.t) :
  length (normalize_private_data self df) = length df.
Proof. rewrite normalize_private_data_rows. apply length_map. Qed.

Lemma normalize_private_data_lookup (self : DataIntegrationPipeline)
    (df : list Raw.t) (i : nat) (row : Raw.t) :
  df !! i = Some row ->
  normalize_private_data self df !! i = Some (normalize_row self row).
Proof.
  intros H. rewrite normalize_private_data_rows.
  change (map (normalize_row self) df) with (normalize_row self <$> df).
  now rewrite list_lookup_fmap, H.
Qed.

Lemma normalize_private_data_elem (self : DataIntegrationPipeline)
    (df : list Raw.t) (n : Normalized.t) :
  n ∈ normalize_private_data self df ->
  exists row, row ∈ df /\ n = normalize_row self row.
Proof.
  rewrite normalize_private_data_rows.
  change (map (normalize_row self) df) with (normalize_row self <$> df).
  intros (row & -> & Hin)%list_elem_of_fmap. eauto.
Qed.

(** The margin of a normalized row is computed from its own rounded
    revenue and ebitda. *)
Lemma normalize_row_margin (self : DataIntegrationPipeline) (row : Raw.t) :
  Normalized.ebitda_margin (normalize_row self row)
  = fround 2 (fmul (fdiv (Normalized.ebitda (normalize_row self row))
                         (Normalized.revenue (normalize_row self row)))
                   (Num 100)).
Proof. reflexivity. Qed.

(** Division by a zero revenue: NaN for a zero or NaN dividend, an infinity
    for any other. *)
Lemma margin_over_zero (e r : float64) :
  feq r (Num 0) ->
  ((feq e (Num 0) \/ e = NaN) -> fround 2 (fmul (fdiv e r) (Num 100)) = NaN) /\
  (~ feq e (Num 0) -> e <> NaN ->
   is_inf (fround 2 (fmul (fdiv e r) (Num 100))) = true).
Proof.
  destruct r as [q | | |]; simpl; try tauto.
  intros Hq. apply Qeq_bool_iff in Hq as Hb.
  assert (Hle : Qle_bool 0 q = true) by (apply Qle_bool_iff; rewrite Hq; apply Qle_refl).
  split.
  - intros [He | ->]; [| reflexivity].
    destruct e as [a | | |]; simpl in He; try tauto.
    simpl. rewrite Hb.
    apply Qeq_alt in He. now rewrite He.
  - intros Hne Hnan.
    destruct e as [a | | |]; simpl in *; rewrite ?Hb, ?Hle; try reflexivity;
      try congruence.
    destruct (Qcompare_spec a 0) as [He | Hl | Hg]; [tauto | reflexivity | reflexivity].
Qed.

(** The rounded conversion of a number is a number, the exact conversion
    to the cent. *)
Lemma converted_amount_close (self : DataIntegrationPipeline) (x : Q)
    (country : option string) :
  exists b,
    fround 2 (convert_currency self (Num x) country) = Num b /\
    cent_close b (x * dict_get (currency_rates self) country 1).
Proof. unfold convert_currency. cbn [fmul]. apply fround2_cent_close. Qed.

Lemma finite_quotient (e r : Q) :
  ~ (r == 0)%Q -> fdiv (Num e) (Num r) = Num (e / r).
Proof.
  intros Hr. simpl.
  destruct (Qeq_bool r 0) eqn:E; [apply Qeq_bool_iff in E; tauto | reflexivity].
Qed.

(** C6: in every normalized row, revenue, ebitda, ebitda_margin and
    valuation_multiple have at most 2 decimal places. Revenue and ebitda
    are the local amounts converted at the rate of the country and then
    rounded: [amount * rate] to the cent, that is, within 0.005 of it up
    to the accuracy of binary64. The valuation multiple is the raw
    multiple to the cent. The margin is
    [round(ebitda / revenue * 100, 2)] on the rounded revenue and ebitda:
    that percentage to the cent when the revenue is not zero. (Each bound
    is for numbers whose magnitude stays in the range of binary64.)
    With the rate 1.07 of Germany, Company_A (100, 20) normalizes to
    revenue 107.00, ebitda 21.40 and margin 20.00; amounts with more
    decimals (33.333, 7.777, multiple 9.876) normalize to 35.67, 8.32,
    margin 23.32 and multiple 9.88. *)
Theorem normalize_private_two_decimals :
  (forall (self : DataIntegrationPipeline) (df : list Raw.t) (i : nat)
          (row : Raw.t),
     df !! i = Some row ->
     let rate := dict_get (currency_rates self) (Raw.country row) 1 in
     exists n,
       normalize_private_data self df !! i = Some n /\
       (has_decimals 2 (Normalized.revenue n) /\
        has_decimals 2 (Normalized.ebitda n) /\
        has_decimals 2 (Normalized.ebitda_margin n) /\
        has_decimals 2 (Normalized.valuation_multiple n)) /\
       (forall x, Raw.revenue_local row = Num x ->
          binary64_safe (x * rate * 100) ->
          exists b, Normalized.revenue n = Num b /\
                    cent_close b (x * rate)) /\
       (forall x, Raw.ebitda_local row = Num x ->
          binary64_safe (x * rate * 100) ->
          exists b, Normalized.ebitda n = Num b /\
                    cent_close b (x * rate)) /\
       (forall v, Raw.valuation_multiple row = Num v ->
          binary64_safe (v * 100) ->
          exists b, Normalized.valuation_multiple n = Num b /\
                    cent_close b v) /\
       (forall e r, Normalized.ebitda n = Num e ->
          Normalized.revenue n = Num r -> ~ (r == 0)%Q ->
          binary64_safe (e / r * 100 * 100) ->
          exists m, Normalized.ebitda_margin n = Num m /\
                    cent_close m (e / r * 100))) /\
  (currency_rates init !! "Germany"%string = Some 1.07%Q /\
   exists n,
     normalize_private_data init [company_a] = [n] /\
     feq (Normalized.revenue n) (Num 107.00) /\
     feq (Normalized.ebitda n) (Num 21.40) /\
     feq (Normalized.ebitda_margin n) (Num 20.00)) /\
  (exists n,
     normalize_private_data init [fractional] = [n] /\
     feq (Normalized.revenue n) (Num 35.67) /\
     feq (Normalized.ebitda n) (Num 8.32) /\
     feq (Normalized.ebitda_margin n) (Num 23.32) /\
     feq (Normalized.valuation_multiple n) (Num 9.88)).
Proof.
  repeat apply conj.
  - intros self df i row H rate.
    exists (normalize_row self row).
    split; [now apply normalize_private_data_lookup |].
    split; [repeat split; apply fround_has_decimals |].
    repeat apply conj.
    + intros x Hx _. cbn [normalize_row Normalized.revenue]. rewrite Hx.
      apply converted_amount_close.
    + intros x Hx _. cbn [normalize_row Normalized.ebitda]. rewrite Hx.
      apply converted_amount_close.
    + intros v Hv _. cbn [normalize_row Normalized.valuation_multiple].
      rewrite Hv. apply fround2_cent_close.
    + intros e r He Hr Hnz _.
      rewrite normalize_row_margin, He, Hr, (finite_quotient _ _ Hnz).
      cbn [fmul]. apply fround2_cent_close.
  - reflexivity.
  - eexists. split; [reflexivity |].
    repeat split; vm_compute; reflexivity.
  - eexists. split; [reflexivity |].
    repeat split; vm_compute; reflexivity.
Qed.

Lemma normalize_private_two_decimals_witness :
  exists n,
    normalize_private_data init [company_a; fractional] !! 1%nat = Some n /\
    has_decimals 2 (Normalized.revenue n) /\
    (exists b, Normalized.revenue n = Num b /\
               cent_close b (33.333 * 1.07)) /\
    (exists b, Normalized.valuation_multiple n = Num b /\
               cent_close b 9.876) /\
    (exists m, Normalized.ebitda_margin n = Num m /\
               cent_close m (8.32 / 35.67 * 100)).
Proof.
  destruct (proj1 normalize_private_two_decimals init [company_a; fractional]
              1%nat fractional eq_refl)
    as (n & Hn & (Hd & _) & Hrev & _ & Hval & Hmar).
  exists n. split; [exact Hn |]. split; [exact Hd |].
  assert (Hrow : n = normalize_row init fractional).
  { rewrite (normalize_private_data_lookup init [company_a; fractional] 1
               fractional eq_refl) in Hn. now injection Hn. }
  repeat apply conj.
  - apply (Hrev 33.333%Q eq_refl).
    unfold binary64_safe. vm_compute. intros H. discriminate H.
  - apply (Hval 9.876%Q eq_refl).
    unfold binary64_safe. vm_compute. intros H. discriminate H.
  - subst n. apply (Hmar 8.32%Q 35.67%Q).
    + vm_compute. reflexivity.
    + vm_compute. reflexivity.
    + intros H. discriminate H.
    + unfold binary64_safe. vm_compute. intros H. discriminate H.
Defined.

(** C2, as the code has it: when the rounded revenue of a normalized row is
    zero, the unguarded division still returns a value and raises nothing,
    but that value is NaN only when the rounded ebitda is zero or NaN; for
    any other ebitda the margin is an infinity, which is not null. *)
Theorem zero_revenue_margin (self : DataIntegrationPipeline) (df : list Raw.t)
    (n : Normalized.t) :
  n ∈ normalize_private_data self df ->
  feq (Normalized.revenue n) (Num 0) ->
  ((feq (Normalized.ebitda n) (Num 0) \/ Normalized.ebitda n = NaN) ->
   Normalized.ebitda_margin n = NaN) /\
  (~ feq (Normalized.ebitda n) (Num 0) -> Normalized.ebitda n <> NaN ->
   is_inf (Normalized.ebitda_margin n) = true /\
   isnull (Normalized.ebitda_margin n) = false).
Proof.
  intros (row & _ & ->)%normalize_private_data_elem Hr.
  rewrite normalize_row_margin.
  destruct (margin_over_zero (Normalized.ebitda (normalize_row self row)) _ Hr)
    as [Hnan Hinf].
  split; [exact Hnan |].
  intros H1 H2. specialize (Hinf H1 H2). split; [exact Hinf |].
  destruct (fround 2 _); simpl in *; congruence.
Qed.

Lemma zero_revenue_margin_witness :
  (is_inf (Normalized.ebitda_margin (normalize_row init no_revenue)) = true /\
   isnull (Normalized.ebitda_margin (normalize_row init no_revenue)) = false) /\
  Normalized.ebitda_margin (normalize_row init dormant) = NaN.
Proof.
  split.
  - apply (zero_revenue_margin init [no_revenue; dormant]
             (normalize_row init no_revenue)).
    + rewrite normalize_private_data_rows. simpl. apply list_elem_of_here.
    + vm_compute. reflexivity.
    + vm_compute. intros H. discriminate H.
    + vm_compute. intros H. discriminate H.
  - apply (zero_revenue_margin init [no_revenue; dormant]
             (normalize_row init dormant)).
    + rewrite normalize_private_data_rows. simpl.
      apply list_elem_of_further, list_elem_of_here.
    + vm_compute. reflexivity.
    + left. vm_compute. reflexivity.
Defined.

(** Counterexample to C2 as the specification states it: Company_B
    reports revenue 0 and ebitda 20 in USD; its normalized revenue is 0 and
    its margin is the infinity of 20 / 0, not a null. *)
Lemma zero_revenue_margin_not_null :
  exists n,
    normalize_private_data init [no_revenue] = [n] /\
    feq (Normalized.revenue n) (Num 0) /\
    Normalized.ebitda_margin n = PosInf /\
    isnull (Normalized.ebitda_margin n) = false.
Proof.
  eexists. split; [reflexivity |].
  repeat split; vm_compute; reflexivity.
Qed.

(** ** The benchmark normalizer *)

(** The four column assignments act row by row and leave the key alone. *)
Lemma normalize_benchmark_data_rows (df : list Benchmark.t) :
  normalize_benchmark_data df = map normalize_benchmark_row df.
Proof.
  unfold normalize_benchmark_data, assign, series_round.
  induction df as [| b df IH]; simpl; [reflexivity |].
  f_equal. exact IH.
Qed.

Lemma normalize_benchmark_data_keys (df : list Benchmark.t) :
  map Benchmark.industry (normalize_benchmark_data df)
  = map Benchmark.industry df.
Proof.
  rewrite normalize_benchmark_data_rows, map_map. reflexivity.
Qed.

(** ** The integrator *)

Lemma integrate_data_rows (self : DataIntegrationPipeline) (now : string)
    (P : list Normalized.t) (B : list Benchmark.t) :
  integrate_data self now P B = map (integrate_row self now) (merge_left P B).
Proof.
  unfold integrate_data, series_round, series_sub.
  generalize (merge_left P B) as l.
  induction l as [| row l IH]; simpl; [reflexivity |].
  unfold integrate_row at 1. f_equal. exact IH.
Qed.

Lemma merge_left_app (P1 P2 : list Normalized.t) (B : list Benchmark.t) :
  merge_left (P1 ++ P2) B = merge_left P1 B ++ merge_left P2 B.
Proof. unfold merge_left. apply bind_app. Qed.

Lemma merge_left_single (p : Normalized.t) (B : list Benchmark.t) :
  merge_left [p] B = merge_row B p.
Proof. unfold merge_left. simpl. apply app_nil_r. Qed.

Lemma integrate_data_app (self : DataIntegrationPipeline) (now : string)
    (P1 P2 : list Normalized.t) (B : list Benchmark.t) :
  integrate_data self now (P1 ++ P2) B
  = integrate_data self now P1 B ++ integrate_data self now P2 B.
Proof. rewrite !integrate_data_rows, merge_left_app. apply map_app. Qed.

Lemma integrate_data_cons (self : DataIntegrationPipeline) (now : string)
    (p : Normalized.t) (P : list Normalized.t) (B : list Benchmark.t) :
  integrate_data self now (p :: P) B
  = integrate_data self now [p] B ++ integrate_data self now P B.
Proof. apply (integrate_data_app self now [p] P B). Qed.

(** One left row yields one row per match, and one row when there is none. *)
Lemma merge_row_length (B : list Benchmark.t) (p : Normalized.t) :
  length (merge_row B p) = Nat.max 1 (match_count B p).
Proof.
  unfold merge_row, match_count.
  destruct (matches (Normalized.industry p) B) as [| b bs]; [reflexivity |].
  rewrite length_map. simpl. reflexivity.
Qed.

Lemma integrate_single_length (self : DataIntegrationPipeline) (now : string)
    (p : Normalized.t) (B : list Benchmark.t) :
  length (integrate_data self now [p] B) = Nat.max 1 (match_count B p).
Proof.
  rewrite integrate_data_rows, length_map, merge_left_single.
  apply merge_row_length.
Qed.

Lemma integrate_data_length (self : DataIntegrationPipeline) (now : string)
    (P : list Normalized.t) (B : list Benchmark.t) :
  length (integrate_data self now P B)
  = sum_list_with (fun p => Nat.max 1 (match_count B p)) P.
Proof.
  induction P as [| p P IH]; [reflexivity |].
  rewrite integrate_data_cons, length_app, integrate_single_length, IH.
  reflexivity.
Qed.

Lemma private_part_integrate_row (self : DataIntegrationPipeline)
    (now : string) (p : Normalized.t) (ob : option Benchmark.t) :
  private_part (integrate_row self now (join p ob)) = p.
Proof. destruct p, ob; reflexivity. Qed.

(** A null subtrahend makes the rounded difference null. *)
Lemma fround_fsub_nan (x : float64) : fround 2 (fsub x NaN) = NaN.
Proof. destruct x; reflexivity. Qed.

Lemma integrate_row_unmatched (self : DataIntegrationPipeline) (now : string)
    (p : Normalized.t) :
  benchmark_part_null (integrate_row self now (join p None)).
Proof.
  unfold benchmark_part_null. simpl.
  repeat split; apply fround_fsub_nan.
Qed.

Lemma integrate_row_matched (self : DataIntegrationPipeline) (now : string)
    (p : Normalized.t) (b : Benchmark.t) :
  benchmark_part_is (integrate_row self now (join p (Some b))) b.
Proof. unfold benchmark_part_is. simpl. auto. Qed.

(** The rows of a left row without a match, and of one with matches. *)
Lemma integrate_single_unmatched (self : DataIntegrationPipeline)
    (now : string) (p : Normalized.t) (B : list Benchmark.t) :
  matches (Normalized.industry p) B = [] ->
  integrate_data self now [p] B = [integrate_row self now (join p None)].
Proof.
  intros H. rewrite integrate_data_rows, merge_left_single.
  unfold merge_row. now rewrite H.
Qed.

Lemma integrate_single_matched (self : DataIntegrationPipeline)
    (now : string) (p : Normalized.t) (B : list Benchmark.t) :
  matches (Normalized.industry p) B <> [] ->
  integrate_data self now [p] B
  = map (fun b => integrate_row self now (join p (Some b)))
        (matches (Normalized.industry p) B).
Proof.
  intros H. rewrite integrate_data_rows, merge_left_single.
  unfold merge_row.
  destruct (matches (Normalized.industry p) B) as [| b bs]; [congruence |].
  now rewrite map_map.
Qed.

Lemma sum_max1_ge (B : list Benchmark.t) (P : list Normalized.t) :
  length P <= sum_list_with (fun p => Nat.max 1 (match_count B p)) P.
Proof. induction P as [| p P IH]; simpl; lia. Qed.

Lemma sum_max1_unique (B : list Benchmark.t) (P : list Normalized.t) :
  (forall p, p ∈ P -> match_count B p <= 1) ->
  sum_list_with (fun p => Nat.max 1 (match_count B p)) P = length P.
Proof.
  induction P as [| p P IH]; intros H; simpl; [reflexivity |].
  rewrite IH.
  - pose proof (H p (list_elem_of_here _ _)). lia.
  - intros q Hq. apply H. now apply list_elem_of_further.
Qed.

(** C1: [integrate_data] is a left outer join on [industry]. The output has
    at least as many rows as the private table, and exactly as many when no
    private industry has more than one benchmark match. The output is the
    concatenation, in order, of the rows of each private record; a record
    without a match yields one row with its own columns and null benchmark
    columns and deltas; a record with k matches yields k rows, the j-th
    carrying the j-th matching benchmark row. *)
Theorem integrate_left_join (self : DataIntegrationPipeline) (now : string)
    (B : list Benchmark.t) :
  (forall P, length P <= length (integrate_data self now P B)) /\
  (forall P, (forall p, p ∈ P -> match_count B p <= 1) ->
     length (integrate_data self now P B) = length P) /\
  (forall P1 p P2,
     integrate_data self now (P1 ++ p :: P2) B
     = integrate_data self now P1 B ++ integrate_data self now [p] B
       ++ integrate_data self now P2 B) /\
  (forall p, match_count B p = 0 ->
     exists r, integrate_data self now [p] B = [r] /\
               private_part r = p /\ benchmark_part_null r) /\
  (forall p, 0 < match_count B p ->
     length (integrate_data self now [p] B) = match_count B p /\
     forall j b, matches (Normalized.industry p) B !! j = Some b ->
       exists r, integrate_data self now [p] B !! j = Some r /\
                 private_part r = p /\ benchmark_part_is r b).
Proof.
  repeat apply conj.
  - intros P. rewrite integrate_data_length. apply sum_max1_ge.
  - intros P H. rewrite integrate_data_length. now apply sum_max1_unique.
  - intros P1 p P2.
    now rewrite integrate_data_app, integrate_data_cons.
  - intros p H. apply nil_length_inv in H.
    exists (integrate_row self now (join p None)).
    split; [now apply integrate_single_unmatched |].
    split; [apply private_part_integrate_row | apply integrate_row_unmatched].
  - intros p H. split.
    + rewrite integrate_single_length. lia.
    + intros j b Hj.
      exists (integrate_row self now (join p (Some b))).
      rewrite integrate_single_matched.
      * split.
        -- change (map ?f ?l) with (f <$> l).
           now rewrite list_lookup_fmap, Hj.
        -- split; [apply private_part_integrate_row | apply integrate_row_matched].
      * unfold match_count in H. intros E. rewrite E in H. simpl in H. lia.
Qed.

Lemma integrate_left_join_witness :
  length (integrate_data init "2024-06-30 12:00:00"
            [normalize_row init company_a] [technology]) = 1 /\
  length (integrate_data init "2024-06-30 12:00:00"
            [normalize_row init company_a] [technology; technology']) = 2 /\
  exists r,
    integrate_data init "2024-06-30 12:00:00"
      [normalize_row init no_revenue] [technology; technology'] = [r] /\
    private_part r = normalize_row init no_revenue /\ benchmark_part_null r.
Proof.
  pose proof (integrate_left_join init "2024-06-30 12:00:00" [technology])
    as (_ & H1 & _).
  pose proof (integrate_left_join init "2024-06-30 12:00:00"
                [technology; technology']) as (_ & _ & _ & H0 & Hk).
  repeat apply conj.
  - apply (H1 [normalize_row init company_a]).
    intros p Hp. apply list_elem_of_singleton in Hp. subst p.
    vm_compute. lia.
  - apply (Hk (normalize_row init company_a)). vm_compute. lia.
  - apply (H0 (normalize_row init no_revenue)). vm_compute. reflexivity.
Defined.

(** ** Order and multiplicity *)

Lemma matches_absent (key : option string) (B : list Benchmark.t) :
  key ∉ map Benchmark.industry B -> matches key B = [].
Proof.
  unfold matches.
  induction B as [| b B IH]; simpl; intros Hnotin; [reflexivity |].
  apply not_elem_of_cons in Hnotin as [Hne Hnotin].
  rewrite filter_cons_False by congruence.
  now apply IH.
Qed.

(** Unique benchmark industries leave at most one match per key. *)
Lemma matches_unique (key : option string) (B : list Benchmark.t) :
  NoDup (map Benchmark.industry B) -> length (matches key B) <= 1.
Proof.
  induction B as [| b B IH]; simpl; intros Hnd; [unfold matches; simpl; lia |].
  apply NoDup_cons in Hnd as [Hnotin Hnd].
  unfold matches. rewrite filter_cons. case_decide as Hb.
  - subst key. fold (matches (Benchmark.industry b) B).
    rewrite (matches_absent _ _ Hnotin). simpl. lia.
  - now apply IH.
Qed.

(** With at most one match per row the merge is a row-wise map. *)
Lemma merge_left_one_to_one (P : list Normalized.t) (B : list Benchmark.t) :
  (forall p, p ∈ P -> match_count B p <= 1) ->
  merge_left P B
  = map (fun p => join p (head (matches (Normalized.industry p) B))) P.
Proof.
  unfold merge_left.
  induction P as [| p P IH]; intros H; [reflexivity |].
  rewrite bind_cons. simpl. rewrite IH.
  - f_equal. pose proof (H p (list_elem_of_here _ _)) as Hp.
    unfold merge_row, match_count in *.
    destruct (matches (Normalized.industry p) B) as [| b [| b' bs]];
      simpl in *; [reflexivity | reflexivity | lia].
  - intros q Hq. apply H. now apply list_elem_of_further.
Qed.

(** C9: the normalizer returns one row per input row, in input order: row i
    of its output is the normalization of input row i and keeps its
    identifying columns. When the benchmark industries are pairwise
    distinct, the integrator likewise returns one row per private row, and
    output row i carries the columns of private row i. *)
Theorem order_and_multiplicity_preserved (self : DataIntegrationPipeline)
    (now : string) :
  (forall df,
     length (normalize_private_data self df) = length df /\
     forall i row, df !! i = Some row ->
       exists n, normalize_private_data self df !! i = Some n /\
                 n = normalize_row self row /\
                 Normalized.company_name n = Raw.company_name row /\
                 Normalized.industry n = Raw.industry row /\
                 Normalized.country n = Raw.country row /\
                 Normalized.fiscal_year n = Raw.fiscal_year row) /\
  (forall P B,
     NoDup (map Benchmark.industry B) ->
     length (integrate_data self now P B) = length P /\
     forall i p, P !! i = Some p ->
       exists r, integrate_data self now P B !! i = Some r /\
                 private_part r = p).
Proof.
  split.
  - intros df. split; [apply normalize_private_data_length |].
    intros i row H. exists (normalize_row self row).
    split; [now apply normalize_private_data_lookup |].
    repeat split.
  - intros P B Hnd.
    assert (Hone : forall p, p ∈ P -> match_count B p <= 1)
      by (intros p _; now apply matches_unique).
    split.
    + rewrite integrate_data_length. now apply sum_max1_unique.
    + intros i p Hi.
      rewrite integrate_data_rows, (merge_left_one_to_one _ _ Hone), map_map.
      eexists. split.
      * change (map ?f ?l) with (f <$> l).
        rewrite list_lookup_fmap, Hi. reflexivity.
      * apply private_part_integrate_row.
Qed.

Lemma order_and_multiplicity_preserved_witness :
  (exists n,
     normalize_private_data init [company_a; no_revenue] !! 1 = Some n /\
     n = normalize_row init no_revenue /\
     Normalized.company_name n = Some "Company_B"%string /\
     Normalized.industry n = Some "Energy"%string /\
     Normalized.country n = Some "USA"%string /\
     Normalized.fiscal_year n = Some 2024%Z) /\
  (exists r,
     integrate_data init "2024-06-30 12:00:00"
       [normalize_row init company_a; normalize_row init no_revenue]
       [technology] !! 1 = Some r /\
     private_part r = normalize_row init no_revenue).
Proof.
  split.
  - apply (proj2 (proj1 (order_and_multiplicity_preserved init
                           "2024-06-30 12:00:00")
                    [company_a; no_revenue]) 1 no_revenue).
    reflexivity.
  - apply (proj2 (order_and_multiplicity_preserved init "2024-06-30 12:00:00")
             [normalize_row init company_a; normalize_row init no_revenue]
             [technology]).
    + simpl. apply NoDup_singleton.
    + reflexivity.
Defined.

(** ** The delta columns *)

Lemma integrate_data_elem (self : DataIntegrationPipeline) (now : string)
    (P : list Normalized.t) (B : list Benchmark.t) (r : Integrated.t) :
  r ∈ integrate_data self now P B ->
  exists m, m ∈ merge_left P B /\ r = integrate_row self now m.
Proof.
  rewrite integrate_data_rows.
  change (map ?f ?l) with (f <$> l).
  intros (m & -> & Hin)%list_elem_of_fmap. eauto.
Qed.




(** ** The validator: duplicates *)

Lemma count_true_app (l1 l2 : list bool) :
  count_true (l1 ++ l2) = count_true l1 + count_true l2.
Proof. apply sum_list_with_app. Qed.

Lemma count_true_replicate (n : nat) : count_true (replicate n true) = n.
Proof.
  unfold count_true.
  induction n as [| n IH]; simpl; [reflexivity | now rewrite IH].
Qed.

Lemma flagged_with_cons (v x : option string) (s : list (option string))
    (f : bool) (flags : list bool) :
  flagged_with v (x :: s) (f :: flags)
  = (if decide (x = v) then Nat.b2n f else 0) + flagged_with v s flags.
Proof.
  unfold flagged_with. cbn [zip zip_with]. rewrite filter_cons.
  destruct f, (decide (x = v)) as [-> | Hne].
  - rewrite decide_True by (cbn; auto). reflexivity.
  - rewrite decide_False by (cbn; tauto). reflexivity.
  - rewrite decide_False by (cbn; intros [? _]; discriminate). reflexivity.
  - rewrite decide_False by (cbn; tauto). reflexivity.
Qed.

Lemma multiplicity_cons (v x : option string) (s : list (option string)) :
  multiplicity v (x :: s)
  = (if decide (x = v) then 1 else 0) + multiplicity v s.
Proof.
  unfold multiplicity. rewrite filter_cons.
  now destruct (decide (x = v)).
Qed.

(** Among the cells holding [v], all are flagged when [v] was seen before
    the column started, and all but the first otherwise. *)
Lemma flagged_with_from (S : gset (option string)) (v : option string)
    (s : list (option string)) :
  flagged_with v s (duplicated_from S s)
  = if decide (v ∈ S) then multiplicity v s else pred (multiplicity v s).
Proof.
  revert S. induction s as [| x s IH]; intros S.
  - now destruct (decide (v ∈ S)).
  - simpl. rewrite flagged_with_cons, multiplicity_cons, IH.
    destruct (decide (x = v)) as [-> | Hne].
    + rewrite (decide_True (P := v ∈ {[v]} ∪ S)) by set_solver.
      destruct (decide (v ∈ S)) as [Hin | Hnotin].
      * now rewrite bool_decide_eq_true_2 by exact Hin.
      * now rewrite bool_decide_eq_false_2 by exact Hnotin.
    + destruct (decide (v ∈ S)) as [Hin | Hnotin].
      * now rewrite decide_True by set_solver.
      * rewrite decide_False; [reflexivity |].
        apply not_elem_of_union. split; [| exact Hnotin].
        apply not_elem_of_singleton. congruence.
Qed.

(** In a list without repetition exactly one entry equals a member. *)
Lemma sum_indicator (x : option string) (n : nat) (vs : list (option string)) :
  NoDup vs -> x ∈ vs ->
  sum_list_with (fun v => if decide (x = v) then n else 0) vs = n.
Proof.
  induction vs as [| v vs IH]; intros Hnd Hin; [now apply elem_of_nil in Hin |].
  apply NoDup_cons in Hnd as [Hnotin Hnd]. simpl.
  destruct (decide (x = v)) as [-> | Hne].
  - clear IH Hin Hnd.
    induction vs as [| w vs IH]; simpl; [lia |].
    apply not_elem_of_cons in Hnotin as [Hne Hnotin].
    rewrite decide_False by exact Hne. now apply IH.
  - apply elem_of_cons in Hin as [-> | Hin]; [congruence |]. now apply IH.
Qed.

Lemma sum_list_with_zero {A : Type} (vs : list A) :
  sum_list_with (fun _ => 0) vs = 0.
Proof. induction vs; simpl; auto. Qed.

Lemma sum_list_with_plus {A : Type} (f g : A -> nat) (vs : list A) :
  sum_list_with (fun v => f v + g v) vs
  = sum_list_with f vs + sum_list_with g vs.
Proof. induction vs as [| v vs IH]; simpl; [reflexivity |]. rewrite IH. lia. Qed.

Lemma sum_list_with_ext {A : Type} (f g : A -> nat) (vs : list A) :
  (forall v, f v = g v) -> sum_list_with f vs = sum_list_with g vs.
Proof. intros H. induction vs as [| v vs IH]; simpl; [reflexivity |]. now rewrite H, IH. Qed.

(** The flagged cells of a column, split by the value they hold. *)
Lemma count_true_by_value (vs s : list (option string)) (flags : list bool) :
  NoDup vs -> (forall x, x ∈ s -> x ∈ vs) -> length flags = length s ->
  count_true flags = sum_list_with (fun v => flagged_with v s flags) vs.
Proof.
  intros Hnd. revert flags.
  induction s as [| x s IH]; intros flags Hsub Hlen.
  - destruct flags; [| discriminate]. unfold flagged_with. simpl.
    now rewrite sum_list_with_zero.
  - destruct flags as [| f flags]; [discriminate |].
    injection Hlen as Hlen.
    rewrite (sum_list_with_ext _ _ vs (fun v => flagged_with_cons v x s f flags)).
    rewrite sum_list_with_plus, sum_indicator, <- IH; trivial.
    + intros y Hy. apply Hsub. now apply list_elem_of_further.
    + apply Hsub. apply list_elem_of_here.
Qed.

Lemma duplicated_from_length (S : gset (option string))
    (s : list (option string)) :
  length (duplicated_from S s) = length s.
Proof.
  revert S. induction s as [| x s IH]; intros S; simpl; [reflexivity |].
  now rewrite IH.
Qed.

(** The number of flagged cells: each distinct value gives its later
    occurrences. *)
Lemma count_duplicated (s : list (option string)) :
  count_true (duplicated s)
  = sum_list_with (fun v => pred (multiplicity v s)) (remove_dups s).
Proof.
  rewrite (count_true_by_value (remove_dups s) s).
  - apply sum_list_with_ext. intros v. unfold duplicated.
    rewrite flagged_with_from. now rewrite decide_False by set_solver.
  - apply NoDup_remove_dups.
  - intros x Hx. now apply elem_of_remove_dups.
  - apply duplicated_from_length.
Qed.

(** C5: [duplicate_companies] counts the occurrences of each company name
    after its first: among the cells holding one name, [duplicated] flags
    all but the first, so a name occurring k times contributes k - 1, and
    the count is the sum of these contributions over the distinct names.
    For the names A, A, B, A it is 2. *)
Theorem duplicate_companies_count (df : list Integrated.t) :
  let names := map Integrated.company_name df in
  (forall v, flagged_with v names (duplicated names) = multiplicity v names - 1) /\
  duplicate_companies (validate_data df)
  = sum_list_with (fun v => multiplicity v names - 1) (remove_dups names) /\
  (forall A B, A <> B -> names = [A; A; B; A] ->
     duplicate_companies (validate_data df) = 2).
Proof.
  intros names. repeat apply conj.
  - intros v. unfold duplicated. rewrite flagged_with_from.
    rewrite decide_False by set_solver. lia.
  - simpl. fold names. rewrite count_duplicated.
    apply sum_list_with_ext. intros v. lia.
  - intros A B Hne Hnames. simpl. fold names. rewrite Hnames.
    unfold duplicated. simpl.
    rewrite (bool_decide_eq_false_2 (A ∈ ∅)) by set_solver.
    rewrite (bool_decide_eq_true_2 (A ∈ {[A]} ∪ ∅)) by set_solver.
    rewrite (bool_decide_eq_false_2 (B ∈ _))
      by (rewrite !not_elem_of_union, !not_elem_of_singleton;
          repeat split; try congruence; apply not_elem_of_empty).
    rewrite (bool_decide_eq_true_2 (A ∈ _)) by set_solver.
    reflexivity.
Qed.

Lemma duplicate_companies_count_witness :
  duplicate_companies
    (validate_data [named (Some "A"%string); named (Some "A"%string);
                    named (Some "B"%string); named (Some "A"%string)]) = 2.
Proof.
  apply (proj2 (proj2 (duplicate_companies_count
                         [named (Some "A"%string); named (Some "A"%string);
                          named (Some "B"%string); named (Some "A"%string)]))
           (Some "A"%string) (Some "B"%string)).
  - intros H. discriminate H.
  - reflexivity.
Defined.

(** ** The validator on a fanned-out join *)

Lemma map_const_replicate {A B : Type} (c : B) (l : list A) :
  map (fun _ => c) l = replicate (length l) c.
Proof. induction l as [| x l IH]; simpl; [reflexivity | now rewrite IH]. Qed.

(** The company names of the rows that one private row yields. *)
Lemma integrate_single_names (self : DataIntegrationPipeline) (now : string)
    (p : Normalized.t) (B : list Benchmark.t) :
  map Integrated.company_name (integrate_data self now [p] B)
  = replicate (S (pred (match_count B p))) (Normalized.company_name p).
Proof.
  destruct (matches (Normalized.industry p) B) as [| b bs] eqn:E.
  - rewrite (integrate_single_unmatched _ _ _ _ E).
    unfold match_count. rewrite E. reflexivity.
  - rewrite integrate_single_matched by (rewrite E; discriminate).
    unfold match_count. rewrite E, map_map. simpl.
    now rewrite map_const_replicate.
Qed.

(** A run of one name: if the name was seen before, every cell of the run
    is flagged; if not, every cell but the first. *)
Lemma duplicated_from_run_seen (S : gset (option string)) (x : option string)
    (n : nat) (s : list (option string)) :
  x ∈ S ->
  duplicated_from S (replicate n x ++ s)
  = replicate n true ++ duplicated_from S s.
Proof.
  intros Hin. induction n as [| n IH]; simpl; [reflexivity |].
  rewrite bool_decide_eq_true_2 by exact Hin.
  replace ({[x]} ∪ S) with S
    by (symmetry; apply subseteq_union_1_L, singleton_subseteq_l, Hin).
  now rewrite IH.
Qed.

Lemma duplicated_from_run_new (S : gset (option string)) (x : option string)
    (n : nat) (s : list (option string)) :
  x ∉ S ->
  duplicated_from S (replicate (Datatypes.S n) x ++ s)
  = false :: replicate n true ++ duplicated_from ({[x]} ∪ S) s.
Proof.
  intros Hnotin. simpl.
  rewrite bool_decide_eq_false_2 by exact Hnotin.
  rewrite duplicated_from_run_seen by set_solver.
  reflexivity.
Qed.

(** With pairwise distinct private names, none of them seen before, the
    flagged rows of the joined table are the extra rows of the fan-out. *)
Lemma count_fanout (self : DataIntegrationPipeline) (now : string)
    (B : list Benchmark.t) (P : list Normalized.t) (S : gset (option string)) :
  NoDup (map Normalized.company_name P) ->
  (forall p, p ∈ P -> Normalized.company_name p ∉ S) ->
  count_true
    (duplicated_from S
       (map Integrated.company_name (integrate_data self now P B)))
  = sum_list_with (fun p => match_count B p - 1) P.
Proof.
  revert S. induction P as [| p P IH]; intros S Hnd Hfresh; [reflexivity |].
  simpl in Hnd. apply NoDup_cons in Hnd as [Hnotin Hnd].
  rewrite integrate_data_cons, map_app, integrate_single_names.
  rewrite duplicated_from_run_new
    by (apply Hfresh, list_elem_of_here).
  change (false :: ?l) with ([false] ++ l).
  rewrite !count_true_app, count_true_replicate, IH; trivial.
  - simpl. lia.
  - intros q Hq. apply not_elem_of_union. split.
    + apply not_elem_of_singleton. intros Heq. apply Hnotin.
      rewrite <- Heq. change (map ?f ?l) with (f <$> l).
      apply list_elem_of_fmap. eauto.
    + apply Hfresh. now apply list_elem_of_further.
Qed.

(** A column without repetition has no flagged cell. *)
Lemma count_duplicated_nodup (s : list (option string))
    (S : gset (option string)) :
  NoDup s -> (forall x, x ∈ s -> x ∉ S) ->
  count_true (duplicated_from S s) = 0.
Proof.
  revert S. induction s as [| x s IH]; intros S Hnd Hfresh; [reflexivity |].
  apply NoDup_cons in Hnd as [Hnotin Hnd]. cbn [duplicated_from].
  rewrite bool_decide_eq_false_2 by (apply Hfresh, list_elem_of_here).
  change (count_true (duplicated_from ({[x]} ∪ S) s) = 0).
  apply IH; trivial.
  intros y Hy. apply not_elem_of_union. split.
  - apply not_elem_of_singleton. intros ->. contradiction.
  - apply Hfresh. now apply list_elem_of_further.
Qed.

(** C10: the validator counts duplicates over the joined table. When the
    company names of the private table are pairwise distinct, so that the
    batch itself has no duplicate, a private row with k > 1 benchmark
    matches still adds its k - 1 fan-out copies to [duplicate_companies]:
    the count is the sum of these over the private rows, which is the
    number of rows that the join added. *)
Theorem fanout_counts_as_duplicates (self : DataIntegrationPipeline)
    (now : string) (P : list Normalized.t) (B : list Benchmark.t) :
  NoDup (map Normalized.company_name P) ->
  count_true (duplicated (map Normalized.company_name P)) = 0 /\
  duplicate_companies (validate_data (integrate_data self now P B))
  = sum_list_with (fun p => match_count B p - 1) P /\
  duplicate_companies (validate_data (integrate_data self now P B))
  = length (integrate_data self now P B) - length P.
Proof.
  intros Hnd.
  assert (Hcount : duplicate_companies
                     (validate_data (integrate_data self now P B))
                   = sum_list_with (fun p => match_count B p - 1) P).
  { simpl. unfold duplicated. apply count_fanout; [exact Hnd |].
    intros p _. apply not_elem_of_empty. }
  repeat apply conj.
  - apply count_duplicated_nodup; [exact Hnd |].
    intros x _. apply not_elem_of_empty.
  - exact Hcount.
  - rewrite Hcount, integrate_data_length.
    clear. induction P as [| p P IH]; simpl; [reflexivity |].
    pose proof (sum_max1_ge B P). lia.
Qed.

(** Company_A against two Technology benchmark rows: no name repeats in
    the batch, one duplicate is reported. *)
Lemma fanout_counts_as_duplicates_witness :
  count_true (duplicated [Normalized.company_name (normalize_row init company_a)])
  = 0 /\
  duplicate_companies
    (validate_data
       (integrate_data init "2024-06-30 12:00:00"
          [normalize_row init company_a] [technology; technology'])) = 1.
Proof.
  destruct (fanout_counts_as_duplicates init "2024-06-30 12:00:00"
              [normalize_row init company_a] [technology; technology'])
    as (H0 & H1 & _).
  - simpl. apply NoDup_singleton.
  - split; [exact H0 |]. rewrite H1. vm_compute. reflexivity.
Defined.

(** ** The validator: quality score *)

Lemma sum_list_with_fmap {A B : Type} (f : B -> nat) (g : A -> B)
    (l : list A) :
  sum_list_with f (g <$> l) = sum_list_with (fun x => f (g x)) l.
Proof.
  induction l as [| x l IH]; [reflexivity |].
  cbn [fmap list_fmap sum_list_with]. rewrite <- IH. reflexivity.
Qed.

(** Summing a row of booleans position by position. *)
Lemma sum_positions (row : list bool) :
  sum_list_with (fun j => Nat.b2n (default false (row !! j)))
                (seq 0 (length row))
  = count_true row.
Proof.
  induction row as [| b row IH]; [reflexivity |].
  cbn [length]. rewrite <- cons_seq, <- fmap_S_seq.
  cbn [sum_list_with]. rewrite sum_list_with_fmap.
  unfold count_true in *. cbn [sum_list_with]. rewrite <- IH. reflexivity.
Qed.

(** The column sums of a table of booleans add up to its row sums. *)
Lemma column_sums_total (n : nat) (mask : list (list bool)) :
  Forall (fun row => length row = n) mask ->
  sum_list (column_sums n mask) = sum_list_with count_true mask.
Proof.
  unfold column_sums. intros Hlen.
  induction Hlen as [| row mask Hrow Hlen IH]; simpl.
  - generalize (seq 0 n) as js.
    induction js as [| j js IHjs]; simpl; [reflexivity | exact IHjs].
  - rewrite <- IH, <- (sum_positions row), Hrow.
    generalize (seq 0 n) as js.
    induction js as [| j js IHjs]; simpl; [reflexivity |].
    unfold count_true in *. simpl. rewrite IHjs. lia.
Qed.

Lemma df_isnull_width (df : list Integrated.t) :
  Forall (fun row => length row = length Integrated.columns) (df_isnull df).
Proof.
  unfold df_isnull. induction df; simpl; constructor; auto.
Qed.

(** [missing_cells] of the validator is the number of null cells. *)
Lemma missing_cells_total (df : list Integrated.t) :
  sum_list (column_sums (shape df).2 (df_isnull df)) = missing_cells_of df.
Proof.
  unfold shape. cbn [snd].
  rewrite column_sums_total by apply df_isnull_width.
  unfold missing_cells_of, df_isnull.
  change (map ?f ?l) with (f <$> l). apply sum_list_with_fmap.
Qed.

(** The score formula on a non-empty table without missing cells, and on
    one with nothing but missing cells. *)
Lemma score_complete (t : Z) :
  (0 < t)%Z ->
  feq (fround 2 (fmul (fdiv (of_int (t - 0)) (of_int t)) (Num 100)))
      (Num 100).
Proof.
  intros Ht. unfold of_int, fdiv.
  assert (Hnz : ~ (inject_Z t == 0)%Q).
  { unfold Qeq. simpl. lia. }
  destruct (Qeq_bool (inject_Z t) 0) eqn:E; [apply Qeq_bool_iff in E; tauto |].
  cbn [fmul]. apply (fround2_whole _ 100).
  rewrite Z.sub_0_r. change (inject_Z 100) with 100%Q. field. exact Hnz.
Qed.

Lemma score_empty (t : Z) :
  (0 < t)%Z ->
  feq (fround 2 (fmul (fdiv (of_int (t - t)) (of_int t)) (Num 100)))
      (Num 0).
Proof.
  intros Ht. unfold of_int, fdiv.
  assert (Hnz : ~ (inject_Z t == 0)%Q).
  { unfold Qeq. simpl. lia. }
  destruct (Qeq_bool (inject_Z t) 0) eqn:E; [apply Qeq_bool_iff in E; tauto |].
  cbn [fmul]. apply (fround2_whole _ 0).
  rewrite Z.sub_diag. change (inject_Z 0) with 0%Q. field. exact Hnz.
Qed.

(** The score is the rounding of the guarded-by-nothing quotient of
    [score_operands]. *)
Lemma score_from_operands (df : list Integrated.t) :
  data_quality_score (validate_data df)
  = fround 2 (fmul (fdiv (score_operands df).1 (score_operands df).2)
                   (Num 100)).
Proof. reflexivity. Qed.

Lemma score_operands_cells (df : list Integrated.t) :
  score_operands df
  = (of_int (Z.of_nat (length df * length Integrated.columns)
             - Z.of_nat (missing_cells_of df)),
     of_int (Z.of_nat (length df * length Integrated.columns))).
Proof. unfold score_operands. now rewrite missing_cells_total. Qed.

(** The rounded percentage of a table with cells. *)
Lemma score_close (t m : Z) :
  (0 < t)%Z ->
  exists s,
    fround 2 (fmul (fdiv (of_int (t - m)) (of_int t)) (Num 100)) = Num s /\
    cent_close s (inject_Z (t - m) / inject_Z t * 100).
Proof.
  intros Ht. unfold of_int.
  assert (Hnz : ~ (inject_Z t == 0)%Q) by (unfold Qeq; simpl; lia).
  rewrite (finite_quotient _ _ Hnz). cbn [fmul]. apply fround2_cent_close.
Qed.

(** C3, as the code has it: for a table with cells the score is
    [(total_cells - missing_cells) / total_cells * 100] rounded to 2
    decimals, where [total_cells] is rows times columns and
    [missing_cells] the number of null cells: a number with at most 2
    decimals that is that percentage to the cent (within 0.005 of it, up
    to the accuracy of binary64), exactly 100.0 when no cell is missing
    and exactly 0.0 when all are. For a table without cells
    there is no guard: the division 0 / 0 is performed, numpy reports an
    invalid value without raising, and the score is NaN, the null of
    pandas. *)
Theorem data_quality_score_value (df : list Integrated.t) :
  let total_cells := length df * length Integrated.columns in
  let missing_cells := missing_cells_of df in
  (0 < total_cells ->
   validate_data_warning df = None /\
   has_decimals 2 (data_quality_score (validate_data df)) /\
   exists s,
     data_quality_score (validate_data df) = Num s /\
     cent_close s
       (inject_Z (Z.of_nat total_cells - Z.of_nat missing_cells)
        / inject_Z (Z.of_nat total_cells) * 100)) /\
  (0 < total_cells -> missing_cells = 0 ->
   feq (data_quality_score (validate_data df)) (Num 100.0)) /\
  (0 < total_cells -> missing_cells = total_cells ->
   feq (data_quality_score (validate_data df)) (Num 0.0)) /\
  (total_cells = 0 ->
   (score_operands df).2 = of_int 0 /\
   validate_data_warning df = Some InvalidValue /\
   data_quality_score (validate_data df) = NaN /\
   isnull (data_quality_score (validate_data df)) = true).
Proof.
  intros total_cells missing_cells.
  assert (Hscore : data_quality_score (validate_data df)
                   = fround 2
                       (fmul (fdiv (of_int (Z.of_nat total_cells
                                            - Z.of_nat missing_cells))
                                   (of_int (Z.of_nat total_cells)))
                             (Num 100)))
    by (rewrite score_from_operands, score_operands_cells; reflexivity).
  assert (Hempty : total_cells = 0 -> missing_cells = 0).
  { intros Hzero. subst total_cells missing_cells.
    destruct df; [reflexivity | discriminate]. }
  split; [| split; [| split]].
  - intros Hpos. split; [| split].
    + unfold validate_data_warning.
      rewrite score_operands_cells. cbn [fst snd]. fold total_cells.
      unfold of_int, fdiv_warning.
      destruct (Qeq_bool (inject_Z (Z.of_nat total_cells)) 0) eqn:E;
        [| reflexivity].
      apply Qeq_bool_iff in E. unfold Qeq in E. simpl in E. lia.
    + rewrite Hscore. apply fround_has_decimals.
    + rewrite Hscore. apply score_close. lia.
  - intros Hpos Hzero. rewrite Hscore, Hzero.
    apply feq_trans with (Num 100); [| reflexivity].
    apply score_complete. lia.
  - intros Hpos Hall. rewrite Hscore, Hall.
    apply feq_trans with (Num 0); [| reflexivity].
    apply score_empty. lia.
  - intros Hzero. pose proof (Hempty Hzero) as Hm.
    split; [| split; [| split]].
    + rewrite score_operands_cells. fold total_cells. now rewrite Hzero.
    + unfold validate_data_warning.
      rewrite score_operands_cells. fold total_cells missing_cells.
      rewrite Hzero, Hm. reflexivity.
    + rewrite Hscore, Hzero, Hm. reflexivity.
    + rewrite Hscore, Hzero, Hm. reflexivity.
Qed.

Lemma data_quality_score_value_witness :
  feq (data_quality_score
         (validate_data
            (integrate_data init "2024-06-30 12:00:00"
               [normalize_row init company_a] [technology])))
      (Num 100.0) /\
  feq (data_quality_score (validate_data [all_null; all_null])) (Num 0.0) /\
  (exists s,
     data_quality_score
       (validate_data
          (integrate_data init "2024-06-30 12:00:00"
             [normalize_row init no_revenue] [technology])) = Num s /\
     cent_close s (inject_Z (18 - 6) / inject_Z 18 * 100)) /\
  (validate_data_warning [] = Some InvalidValue /\
   data_quality_score (validate_data []) = NaN).
Proof.
  repeat apply conj.
  - apply (proj1 (proj2 (data_quality_score_value
                           (integrate_data init "2024-06-30 12:00:00"
                              [normalize_row init company_a] [technology])))).
    + vm_compute. lia.
    + vm_compute. reflexivity.
  - apply (proj1 (proj2 (proj2 (data_quality_score_value [all_null; all_null])))).
    + vm_compute. lia.
    + vm_compute. reflexivity.
  - apply (proj1 (data_quality_score_value
                    (integrate_data init "2024-06-30 12:00:00"
                       [normalize_row init no_revenue] [technology]))).
    vm_compute. lia.
  - apply (proj2 (proj2 (proj2 (data_quality_score_value [])))).
    reflexivity.
  - apply (proj2 (proj2 (proj2 (data_quality_score_value [])))).
    reflexivity.
Defined.

(** Counterexample to C3 as the specification states it: for the table
    without rows the divisor is 0 and nothing guards the division; the
    validator divides 0 by 0, which numpy reports as an invalid value, and
    what it returns is the result of that division, not the 100.0 that
    the report held at first. *)
Lemma empty_table_divides_by_zero :
  score_operands [] = (of_int 0, of_int 0) /\
  validate_data_warning [] = Some InvalidValue /\
  data_quality_score (validate_data [])
  = fround 2 (fmul (fdiv (of_int 0) (of_int 0)) (Num 100)) /\
  data_quality_score (validate_data []) <> Num 100.
Proof.
  repeat split; try reflexivity.
  vm_compute. intros H. discriminate H.
Qed.

(** * Further properties of the pipeline *)

(** ** Rounding *)

Lemma rint_ge (q : Q) (k : Z) : (inject_Z k <= q)%Q -> (k <= rint q)%Z.
Proof.
  intros H. apply Qfloor_resp_le in H. rewrite Qfloor_Z in H.
  unfold rint. destruct (Qcompare _ _); [destruct (Z.even _) | |]; lia.
Qed.

Lemma rint_le (q : Q) (k : Z) : (q <= inject_Z k)%Q -> (rint q <= k)%Z.
Proof.
  intros H. unfold rint.
  pose proof (Qfloor_le q) as Hlo.
  assert (Hfk : (Qfloor q <= k)%Z)
    by (rewrite Zle_Qle; apply Qle_trans with q; assumption).
  set (f := Qfloor q) in *.
  assert (Hstep : (inject_Z f < inject_Z k)%Q -> (f + 1 <= k)%Z)
    by (rewrite <- Zlt_Qlt; lia).
  destruct (Qcompare_spec (q - inject_Z f) (1 # 2)) as [He | Hl | Hg].
  - destruct (Z.even f); [lia |]. apply Hstep. lra.
  - lia.
  - apply Hstep. lra.
Qed.

(** Rounding a rounded number changes nothing. *)
Lemma fround2_idempotent (x : float64) :
  feq (fround 2 (fround 2 x)) (fround 2 x).
Proof.
  destruct x as [a | | |]; simpl; trivial.
  change (inject_Z (10 ^ Z.of_nat 2)) with (inject_Z 100).
  set (k := rint (a * inject_Z 100)).
  rewrite (rint_comp _ (inject_Z k)); [now rewrite rint_inject_Z |].
  field.
Qed.

Lemma isnull_fround (d : nat) (x : float64) : isnull (fround d x) = isnull x.
Proof. now destruct x. Qed.

Lemma is_inf_fround (d : nat) (x : float64) : is_inf (fround d x) = is_inf x.
Proof. now destruct x. Qed.

(** [round(2)] keeps a lower and an upper bound that are whole numbers of
    cents. *)
Lemma fround2_lower (a : Q) (lo : Z) :
  (inject_Z lo / 100 <= a)%Q ->
  exists b, fround 2 (Num a) = Num b /\ (inject_Z lo / 100 <= b)%Q.
Proof.
  intros Hlo. eexists. split; [reflexivity |].
  change (inject_Z (10 ^ Z.of_nat 2)) with 100%Q.
  assert (Hd : forall z, (inject_Z z / 100 == inject_Z z * (1 # 100))%Q)
    by (intros z; unfold Qdiv; reflexivity).
  rewrite !Hd in *.
  pose proof (rint_ge (a * 100) lo) as Hge.
  rewrite Zle_Qle in Hge.
  assert (inject_Z lo <= a * 100)%Q by lra. intuition lra.
Qed.

Lemma fround2_upper (a : Q) (hi : Z) :
  (a <= inject_Z hi / 100)%Q ->
  exists b, fround 2 (Num a) = Num b /\ (b <= inject_Z hi / 100)%Q.
Proof.
  intros Hhi. eexists. split; [reflexivity |].
  change (inject_Z (10 ^ Z.of_nat 2)) with 100%Q.
  assert (Hd : forall z, (inject_Z z / 100 == inject_Z z * (1 # 100))%Q)
    by (intros z; unfold Qdiv; reflexivity).
  rewrite !Hd in *.
  pose proof (rint_le (a * 100) hi) as Hle.
  rewrite Zle_Qle in Hle.
  assert (a * 100 <= inject_Z hi)%Q by lra. intuition lra.
Qed.

(** A number that rounds to a negative one is negative. *)
Lemma flt0_fround2 (x : float64) : flt0 (fround 2 x) = true -> flt0 x = true.
Proof.
  destruct x as [a | | |]; trivial.
  assert (E0 : (inject_Z 0 / 100 == 0)%Q) by reflexivity.
  cbn [flt0]. destruct (Qcompare_spec a 0) as [He | Hl | Hg]; trivial;
    intros H; exfalso.
  - destruct (fround2_lower a 0) as (b & Hb & Hb0); [rewrite E0; lra |].
    rewrite Hb in H. cbn [flt0] in H. rewrite E0 in Hb0.
    destruct (Qcompare_spec b 0) as [? | Hl' | ?]; try discriminate. lra.
  - destruct (fround2_lower a 0) as (b & Hb & Hb0); [rewrite E0; lra |].
    rewrite Hb in H. cbn [flt0] in H. rewrite E0 in Hb0.
    destruct (Qcompare_spec b 0) as [? | Hl' | ?]; try discriminate. lra.
Qed.

(** ** More on the currency converter *)

(** Scaling by a positive rate keeps the kind and the sign of a value. *)
Lemma fmul_pos_kind (r : Q) (x : float64) :
  (0 < r)%Q ->
  isnull (fmul x (Num r)) = isnull x /\
  is_inf (fmul x (Num r)) = is_inf x /\
  flt0 (fmul x (Num r)) = flt0 x.
Proof.
  intros Hr.
  assert (Hc : (r ?= 0)%Q = Gt) by (apply Qgt_alt; exact Hr).
  destruct x as [a | | |]; simpl; unfold inf_scaled; rewrite ?Hc; auto.
  repeat split.
  destruct (Qcompare_spec a 0) as [He | Hl | Hg];
    destruct (Qcompare_spec (a * r) 0) as [He' | Hl' | Hg']; trivial; exfalso; nra.
Qed.

Lemma init_rate_positive (c : option string) :
  (0 < dict_get (currency_rates init) c 1)%Q.
Proof.
  destruct (dict_get_cases (currency_rates init) c 1) as [-> | (k & _ & H)].
  - reflexivity.
  - exact (init_rates_positive _ _ H).
Qed.

Lemma convert_currency_init_kind (amount : float64) (country : option string) :
  isnull (convert_currency init amount country) = isnull amount /\
  is_inf (convert_currency init amount country) = is_inf amount /\
  flt0 (convert_currency init amount country) = flt0 amount.
Proof. unfold convert_currency. apply fmul_pos_kind, init_rate_positive. Qed.

(** X1: with the rates of the pipeline, conversion neither makes nor
    removes a null: the result is NaN exactly when the amount is. An
    infinite amount stays infinite, and a negative result comes only from
    a negative amount. *)
Theorem convert_currency_keeps_kind (amount : float64) (country : option string) :
  isnull (convert_currency init amount country) = isnull amount /\
  (is_inf amount = true -> is_inf (convert_currency init amount country) = true) /\
  (flt0 (convert_currency init amount country) = true -> flt0 amount = true).
Proof.
  destruct (convert_currency_init_kind amount country) as (Hn & Hi & Hs).
  split; [exact Hn |]. split; congruence.
Qed.

Lemma convert_currency_keeps_kind_witness :
  is_inf (convert_currency init NegInf (Some "Brazil"%string)) = true /\
  flt0 (Num (-5)) = true.
Proof.
  split.
  - apply (proj1 (proj2 (convert_currency_keeps_kind NegInf
                           (Some "Brazil"%string)))).
    reflexivity.
  - apply (proj2 (proj2 (convert_currency_keeps_kind (Num (-5))
                           (Some "India"%string)))).
    vm_compute. reflexivity.
Defined.

(** ** More on the private-record normalizer *)

(** X2: a normalized revenue or ebitda is negative only if the raw amount
    was negative, so the validator never reports a negative value that the
    input did not have. The converse fails: a negative amount of less than
    half a cent rounds to zero and is no longer negative. *)
Theorem normalized_negative_sound :
  (forall (df : list Raw.t) (i : nat) (row : Raw.t) (n : Normalized.t),
     df !! i = Some row ->
     normalize_private_data init df !! i = Some n ->
     (flt0 (Normalized.revenue n) = true -> flt0 (Raw.revenue_local row) = true) /\
     (flt0 (Normalized.ebitda n) = true -> flt0 (Raw.ebitda_local row) = true)) /\
  (flt0 (Raw.revenue_local tiny_loss) = true /\
   map (fun n => flt0 (Normalized.revenue n))
       (normalize_private_data init [tiny_loss]) = [false]).
Proof.
  split.
  - intros df i row n Hrow Hn.
    rewrite (normalize_private_data_lookup _ _ _ _ Hrow) in Hn.
    injection Hn as <-. simpl.
    split; intros H%flt0_fround2;
      now rewrite (proj2 (proj2 (convert_currency_init_kind _ _))) in H.
  - split; vm_compute; reflexivity.
Qed.

Lemma normalized_negative_sound_witness :
  flt0 (Raw.ebitda_local loss_maker) = true.
Proof.
  apply (proj1 normalized_negative_sound [company_a; loss_maker] 1 loss_maker
           (normalize_row init loss_maker)).
  - reflexivity.
  - reflexivity.
  - vm_compute. reflexivity.
Defined.

(** The quotient of two finite numbers, the divisor not zero. *)
Lemma fdiv_finite (e r : Q) :
  ~ (r == 0)%Q -> fdiv (Num e) (Num r) = Num (e / r).
Proof.
  intros Hr. simpl.
  destruct (Qeq_bool r 0) eqn:E; [apply Qeq_bool_iff in E; tauto | reflexivity].
Qed.

(** X3: when the rounded revenue of a normalized row is a non-zero number
    and its rounded ebitda is a number, the margin is not null. While the
    percentage stays in the range of binary64 the margin is a number with
    at most 2 decimals, and it is ebitda / revenue * 100 to the cent:
    within 0.005 of it, up to the accuracy of binary64. *)
Theorem margin_of_nonzero_revenue (self : DataIntegrationPipeline)
    (df : list Raw.t) (n : Normalized.t) (e r : Q) :
  n ∈ normalize_private_data self df ->
  Normalized.ebitda n = Num e ->
  Normalized.revenue n = Num r ->
  ~ (r == 0)%Q ->
  isnull (Normalized.ebitda_margin n) = false /\
  (binary64_safe (e / r * 100 * 100) ->
   exists m, Normalized.ebitda_margin n = Num m /\
             cent_close m (e / r * 100) /\
             has_decimals 2 (Normalized.ebitda_margin n)).
Proof.
  intros (row & _ & ->)%normalize_private_data_elem He Hr Hnz.
  rewrite normalize_row_margin, He, Hr, (fdiv_finite _ _ Hnz).
  cbn [fmul].
  destruct (fround2_cent_close (e / r * 100)) as (m & Hm & Hclose).
  split; [now rewrite Hm |].
  intros _. exists m. split; [exact Hm |]. split; [exact Hclose |].
  apply fround_has_decimals.
Qed.

Lemma margin_of_nonzero_revenue_witness :
  isnull (Normalized.ebitda_margin (normalize_row init loss_maker)) = false /\
  exists m,
    Normalized.ebitda_margin (normalize_row init loss_maker) = Num m /\
    cent_close m ((-0.24) / 1.20 * 100) /\
    has_decimals 2 (Normalized.ebitda_margin (normalize_row init loss_maker)).
Proof.
  destruct (margin_of_nonzero_revenue init [loss_maker]
              (normalize_row init loss_maker) (-0.24)%Q 1.20%Q) as [Hnull Hm].
  - rewrite normalize_private_data_rows. apply list_elem_of_here.
  - vm_compute. reflexivity.
  - vm_compute. reflexivity.
  - vm_compute. intros H. discriminate H.
  - split; [exact Hnull |]. apply Hm.
    unfold binary64_safe. vm_compute. intros H. discriminate H.
Defined.

(** When a quotient is null. *)
Lemma fdiv_isnull (e r : float64) :
  isnull (fdiv e r) = true <->
  isnull e = true \/ isnull r = true \/
  (feq e (Num 0) /\ feq r (Num 0)) \/
  (is_inf e = true /\ is_inf r = true).
Proof.
  destruct e as [a | | |], r as [b | | |]; simpl;
    try (intuition (try discriminate; auto); fail).
  all: try (destruct (Qle_bool 0 b); simpl;
            intuition (try discriminate; auto); fail).
  destruct (Qeq_bool b 0) eqn:Eb.
  - apply Qeq_bool_iff in Eb.
    destruct (Qcompare_spec a 0) as [Ea | Ha | Ha]; simpl;
      intuition (try discriminate; auto; try lra).
  - simpl.
    assert (~ (b == 0)%Q) by (intros H; apply Qeq_bool_iff in H; congruence).
    intuition (try discriminate; auto).
Qed.

(** X4: the margin of a normalized row is null in four cases and no other:
    the rounded ebitda is null, the rounded revenue is null, both are
    zero, or both are infinite. *)
Theorem margin_null_cases (self : DataIntegrationPipeline) (df : list Raw.t)
    (n : Normalized.t) :
  n ∈ normalize_private_data self df ->
  (isnull (Normalized.ebitda_margin n) = true <->
   isnull (Normalized.ebitda n) = true \/
   isnull (Normalized.revenue n) = true \/
   (feq (Normalized.ebitda n) (Num 0) /\ feq (Normalized.revenue n) (Num 0)) \/
   (is_inf (Normalized.ebitda n) = true /\ is_inf (Normalized.revenue n) = true)).
Proof.
  intros (row & _ & ->)%normalize_private_data_elem.
  rewrite normalize_row_margin, isnull_fround.
  rewrite (proj1 (fmul_pos_kind 100 _ eq_refl)).
  apply fdiv_isnull.
Qed.

Lemma margin_null_cases_witness :
  isnull (Normalized.ebitda_margin (normalize_row init dormant)) = true.
Proof.
  apply (margin_null_cases init [dormant] (normalize_row init dormant)).
  - rewrite normalize_private_data_rows. apply list_elem_of_here.
  - right. right. left. split; vm_compute; reflexivity.
Defined.

(** X5: the normalizer does not read the [currency] column: relabelling
    the currencies of a table in any way leaves its normalization
    unchanged. The rate comes from [country] alone. *)
Theorem normalize_ignores_currency_label (self : DataIntegrationPipeline)
    (relabel : Raw.t -> option string) (df : list Raw.t) :
  normalize_private_data self (map (fun row => with_currency row (relabel row)) df)
  = normalize_private_data self df.
Proof.
  rewrite !normalize_private_data_rows, map_map. reflexivity.
Qed.

(** X6: normalizing a batch in two parts and concatenating gives the
    normalization of the whole batch. *)
Theorem normalize_private_data_app (self : DataIntegrationPipeline)
    (df1 df2 : list Raw.t) :
  normalize_private_data self (df1 ++ df2)
  = normalize_private_data self df1 ++ normalize_private_data self df2.
Proof. rewrite !normalize_private_data_rows. apply map_app. Qed.

(** ** More on the benchmark normalizer *)

(** X7: the benchmark normalizer returns one row per input row, in input
    order. Row i keeps its industry; each of its four metrics has at most
    2 decimals, is null exactly when the input metric is, is infinite
    when the input metric is, and for an input number (in the range of
    binary64) is that number to the cent: a number within 0.005 of it, up
    to the accuracy of binary64. *)
Theorem normalize_benchmark_rounds (df : list Benchmark.t) :
  length (normalize_benchmark_data df) = length df /\
  forall i b, df !! i = Some b ->
    exists b', normalize_benchmark_data df !! i = Some b' /\
      Benchmark.industry b' = Benchmark.industry b /\
      Forall2
        (fun rounded raw =>
           has_decimals 2 rounded /\
           isnull rounded = isnull raw /\
           (is_inf raw = true -> is_inf rounded = true) /\
           forall x, raw = Num x -> binary64_safe (x * 100) ->
             exists y, rounded = Num y /\ cent_close y x)
        [Benchmark.average_margin b'; Benchmark.sector_growth_rate b';
         Benchmark.average_valuation_multiple b';
         Benchmark.market_size_billions b']
        [Benchmark.average_margin b; Benchmark.sector_growth_rate b;
         Benchmark.average_valuation_multiple b;
         Benchmark.market_size_billions b].
Proof.
  rewrite normalize_benchmark_data_rows. split; [apply length_map |].
  intros i b H. exists (normalize_benchmark_row b). split.
  - change (map ?f ?l) with (f <$> l). now rewrite list_lookup_fmap, H.
  - split; [reflexivity |].
    repeat constructor; cbn [normalize_benchmark_row Benchmark.average_margin
      Benchmark.sector_growth_rate Benchmark.average_valuation_multiple
      Benchmark.market_size_billions];
      try apply fround_has_decimals; try apply isnull_fround;
      try (intros Hinf; now rewrite is_inf_fround);
      intros x -> _; apply fround2_cent_close.
Qed.

Lemma normalize_benchmark_rounds_witness :
  exists b',
    normalize_benchmark_data [technology; fractional_benchmark] !! 1 = Some b' /\
    Benchmark.industry b' = Some "Energy"%string /\
    exists y, Benchmark.average_margin b' = Num y /\
              cent_close y 21.4567.
Proof.
  destruct (proj2 (normalize_benchmark_rounds [technology; fractional_benchmark])
              1 fractional_benchmark eq_refl) as (b' & H & Hi & Hm).
  exists b'. split; [exact H |]. split; [exact Hi |].
  apply Forall2_cons_1 in Hm as [(_ & _ & _ & Hclose) _].
  assert (Hrow : Benchmark.average_margin fractional_benchmark = Num 21.4567)
    by reflexivity.
  apply (Hclose _ Hrow).
  unfold binary64_safe. vm_compute. intros Hgt. discriminate Hgt.
Defined.

Lemma normalize_benchmark_row_idempotent (b : Benchmark.t) :
  benchmark_equiv (normalize_benchmark_row (normalize_benchmark_row b))
                  (normalize_benchmark_row b).
Proof.
  unfold benchmark_equiv. simpl.
  repeat split; apply fround2_idempotent.
Qed.

(** X8: normalizing an already normalized benchmark table changes nothing:
    row by row the key is the same and the metrics are equal. *)
Theorem normalize_benchmark_idempotent (df : list Benchmark.t) :
  Forall2 benchmark_equiv
    (normalize_benchmark_data (normalize_benchmark_data df))
    (normalize_benchmark_data df).
Proof.
  rewrite !normalize_benchmark_data_rows.
  induction df as [| b df IH]; simpl; constructor; [| exact IH].
  apply normalize_benchmark_row_idempotent.
Qed.

(** ** More on the integrator *)

(** X9: the integrated table has, for each private row, as many rows as
    that row has benchmark matches, and one row when it has none. *)
Theorem integrate_data_row_count (self : DataIntegrationPipeline)
    (now : string) (P : list Normalized.t) (B : list Benchmark.t) :
  length (integrate_data self now P B)
  = sum_list_with (fun p => Nat.max 1 (match_count B p)) P.
Proof. apply integrate_data_length. Qed.

Lemma merge_row_elem (B : list Benchmark.t) (p : Normalized.t) (m : Merged.t) :
  m ∈ merge_row B p <->
  (matches (Normalized.industry p) B = [] /\ m = join p None) \/
  (exists b, b ∈ matches (Normalized.industry p) B /\ m = join p (Some b)).
Proof.
  unfold merge_row.
  destruct (matches (Normalized.industry p) B) as [| b bs] eqn:E.
  - rewrite list_elem_of_singleton. split.
    + intros ->. now left.
    + intros [[_ ->] | (b & Hb & _)]; [reflexivity |].
      now apply elem_of_nil in Hb.
  - change (map ?f ?l) with (f <$> l). rewrite list_elem_of_fmap. split.
    + intros (b' & -> & Hb'). right. eauto.
    + intros [[H _] | (b' & Hb' & ->)]; [discriminate | eauto].
Qed.

Lemma merge_left_elem (P : list Normalized.t) (B : list Benchmark.t)
    (m : Merged.t) :
  m ∈ merge_left P B <-> exists p, p ∈ P /\ m ∈ merge_row B p.
Proof.
  unfold merge_left. rewrite list_elem_of_bind. split.
  - intros (p & Hm & Hp). eauto.
  - intros (p & Hp & Hm). eauto.
Qed.

Lemma merge_row_nonempty (B : list Benchmark.t) (p : Normalized.t) :
  exists ob, join p ob ∈ merge_row B p.
Proof.
  unfold merge_row.
  destruct (matches (Normalized.industry p) B) as [| b bs].
  - exists None. apply list_elem_of_here.
  - exists (Some b). simpl. apply list_elem_of_here.
Qed.

Lemma matches_elem (key : option string) (B : list Benchmark.t) (b : Benchmark.t) :
  b ∈ matches key B <-> Benchmark.industry b = key /\ b ∈ B.
Proof. unfold matches. now rewrite list_elem_of_filter. Qed.

Lemma matches_nil (key : option string) (B : list Benchmark.t) :
  matches key B = [] -> forall b, b ∈ B -> Benchmark.industry b <> key.
Proof.
  intros H b Hb Hkey.
  assert (Hin : b ∈ matches key B) by (apply matches_elem; auto).
  rewrite H in Hin. now apply elem_of_nil in Hin.
Qed.

(** X10: the join neither loses nor invents a private record: the private
    columns of every output row are those of some input row, and every
    input row is found in the output. *)
Theorem integrate_private_side (self : DataIntegrationPipeline) (now : string)
    (P : list Normalized.t) (B : list Benchmark.t) :
  (forall r, r ∈ integrate_data self now P B -> private_part r ∈ P) /\
  (forall p, p ∈ P ->
     exists r, r ∈ integrate_data self now P B /\ private_part r = p).
Proof.
  split.
  - intros r (m & Hm & ->)%integrate_data_elem.
    apply merge_left_elem in Hm as (p & Hp & Hm).
    apply merge_row_elem in Hm as [[_ ->] | (b & _ & ->)];
      now rewrite private_part_integrate_row.
  - intros p Hp. destruct (merge_row_nonempty B p) as (ob & Hob).
    exists (integrate_row self now (join p ob)). split.
    + rewrite integrate_data_rows. change (map ?f ?l) with (f <$> l).
      apply list_elem_of_fmap. exists (join p ob). split; [reflexivity |].
      apply merge_left_elem. eauto.
    + apply private_part_integrate_row.
Qed.

Lemma integrate_private_side_witness :
  exists r,
    r ∈ integrate_data init "2024-06-30 12:00:00"
          [normalize_row init company_a; normalize_row init no_revenue]
          [technology; technology'] /\
    private_part r = normalize_row init no_revenue.
Proof.
  apply (proj2 (integrate_private_side init "2024-06-30 12:00:00"
                  [normalize_row init company_a; normalize_row init no_revenue]
                  [technology; technology'])).
  apply list_elem_of_further, list_elem_of_here.
Defined.

(** X11: the benchmark columns of an output row are never made up: either
    they are those of a benchmark row with the same industry as the output
    row, or no benchmark row has that industry and they are null together
    with both deltas. *)
Theorem integrate_benchmark_side (self : DataIntegrationPipeline)
    (now : string) (P : list Normalized.t) (B : list Benchmark.t)
    (r : Integrated.t) :
  r ∈ integrate_data self now P B ->
  (exists b, b ∈ B /\ Benchmark.industry b = Integrated.industry r /\
             benchmark_part_is r b) \/
  ((forall b, b ∈ B -> Benchmark.industry b <> Integrated.industry r) /\
   benchmark_part_null r).
Proof.
  intros (m & Hm & ->)%integrate_data_elem.
  apply merge_left_elem in Hm as (p & Hp & Hm).
  apply merge_row_elem in Hm as [[Hnil ->] | (b & Hb & ->)].
  - right. split; [| apply integrate_row_unmatched].
    simpl. now apply matches_nil.
  - left. apply matches_elem in Hb as [Hkey Hb].
    exists b. repeat split; trivial.
Qed.

Lemma integrate_benchmark_side_witness :
  (exists b, b ∈ [technology] /\
     Benchmark.industry b
     = Integrated.industry
         (integrate_row init "2024-06-30 12:00:00"
            (join (normalize_row init no_revenue) None)) /\
     benchmark_part_is
       (integrate_row init "2024-06-30 12:00:00"
          (join (normalize_row init no_revenue) None)) b) \/
  ((forall b, b ∈ [technology] ->
      Benchmark.industry b
      <> Integrated.industry
           (integrate_row init "2024-06-30 12:00:00"
              (join (normalize_row init no_revenue) None))) /\
   benchmark_part_null
     (integrate_row init "2024-06-30 12:00:00"
        (join (normalize_row init no_revenue) None))).
Proof.
  apply (integrate_benchmark_side init "2024-06-30 12:00:00"
           [normalize_row init no_revenue] [technology]).
  vm_compute. apply list_elem_of_here.
Defined.

Lemma count_true_all_false {A : Type} (f : A -> bool) (l : list A) :
  (forall x, x ∈ l -> f x = false) -> count_true (map f l) = 0.
Proof.
  unfold count_true.
  induction l as [| x l IH]; intros H; simpl; [reflexivity |].
  rewrite (H x) by apply list_elem_of_here. simpl.
  apply IH. intros y Hy. apply H. now apply list_elem_of_further.
Qed.

(** X12: every row of the integrated table carries the same four metadata
    cells: the constant source label, the target currency and unit of the
    pipeline, and the one timestamp of the run. None of them is ever null,
    so these four columns have no missing value. *)
Theorem integrate_metadata (self : DataIntegrationPipeline) (now : string)
    (P : list Normalized.t) (B : list Benchmark.t) :
  (forall r, r ∈ integrate_data self now P B ->
     metadata r
     = (Some "Integrated_Private_and_Benchmark"%string,
        Some (target_currency self), Some (target_unit self), Some now)) /\
  (forall j c, Integrated.columns !! j = Some c ->
     c ∈ ["data_source"; "currency"; "units"; "last_updated"]%string ->
     column_null_count j (integrate_data self now P B) = 0).
Proof.
  split.
  - intros r (m & _ & ->)%integrate_data_elem. reflexivity.
  - intros j c Hj Hc. unfold column_null_count.
    apply count_true_all_false.
    intros r (m & _ & ->)%integrate_data_elem.
    do 18 (destruct j as [| j];
           [injection Hj as <-;
            first [reflexivity
                  | exfalso; revert Hc; clear;
                    rewrite !elem_of_cons, elem_of_nil;
                    intros [H | [H | [H | [H | []]]]]; discriminate H] |]).
    discriminate Hj.
Qed.

Lemma integrate_metadata_witness :
  column_null_count 15
    (integrate_data init "2024-06-30 12:00:00"
       [normalize_row init no_revenue] [technology]) = 0.
Proof.
  apply (proj2 (integrate_metadata init "2024-06-30 12:00:00"
                  [normalize_row init no_revenue] [technology])
           15 "last_updated"%string).
  - reflexivity.
  - rewrite !elem_of_cons. auto.
Defined.

Lemma merge_left_no_benchmark (P : list Normalized.t) :
  merge_left P [] = map (fun p => join p None) P.
Proof.
  unfold merge_left.
  induction P as [| p P IH]; [reflexivity |].
  rewrite bind_cons, IH. reflexivity.
Qed.

(** X13: the edge tables. Without private rows the integrated table is
    empty; without benchmark rows it has exactly the private rows, in
    order, every one with null benchmark columns and null deltas. *)
Theorem integrate_empty_inputs (self : DataIntegrationPipeline) (now : string) :
  (forall B, integrate_data self now [] B = []) /\
  (forall P, map private_part (integrate_data self now P []) = P /\
             forall r, r ∈ integrate_data self now P [] -> benchmark_part_null r).
Proof.
  split; [reflexivity |].
  intros P. rewrite integrate_data_rows, merge_left_no_benchmark.
  split.
  - induction P as [| p P IH]; [reflexivity |].
    cbn [map]. now rewrite IH, private_part_integrate_row.
  - intros r. rewrite map_map. change (map ?f ?l) with (f <$> l).
    intros (p & -> & _)%list_elem_of_fmap. apply integrate_row_unmatched.
Qed.

Lemma integrate_empty_inputs_witness :
  benchmark_part_null
    (integrate_row init "2024-06-30 12:00:00"
       (join (normalize_row init company_a) None)).
Proof.
  apply (proj2 (proj2 (integrate_empty_inputs init "2024-06-30 12:00:00")
                  [normalize_row init company_a])).
  vm_compute. apply list_elem_of_here.
Defined.

Lemma matches_map (f : Benchmark.t -> Benchmark.t) (key : option string)
    (B : list Benchmark.t) :
  (forall b, Benchmark.industry (f b) = Benchmark.industry b) ->
  matches key (map f B) = map f (matches key B).
Proof.
  intros Hf. unfold matches.
  induction B as [| b B IH]; simpl; [reflexivity |].
  rewrite !filter_cons, Hf, IH.
  now destruct (decide (Benchmark.industry b = key)).
Qed.

(** X14: rounding the benchmark metrics does not change which rows join:
    every private row has as many matches in the normalized benchmark
    table as in the raw one, so the integrated table has the same number
    of rows either way. *)
Theorem benchmark_normalization_keeps_matches (self : DataIntegrationPipeline)
    (now : string) (P : list Normalized.t) (B : list Benchmark.t) :
  (forall p, match_count (normalize_benchmark_data B) p = match_count B p) /\
  length (integrate_data self now P (normalize_benchmark_data B))
  = length (integrate_data self now P B).
Proof.
  assert (Hcount : forall p,
            match_count (normalize_benchmark_data B) p = match_count B p).
  { intros p. unfold match_count.
    rewrite normalize_benchmark_data_rows, matches_map by reflexivity.
    apply length_map. }
  split; [exact Hcount |].
  rewrite !integrate_data_length.
  apply sum_list_with_ext. intros p. now rewrite Hcount.
Qed.

(** ** More on the validator *)

Lemma columns_nodup : NoDup Integrated.columns.
Proof. apply (bool_decide_unpack _). vm_compute. reflexivity. Qed.

Lemma column_sums_length (n : nat) (mask : list (list bool)) :
  length (column_sums n mask) = n.
Proof. unfold column_sums. now rewrite length_map, length_seq. Qed.

Lemma column_sums_lookup (j : nat) (df : list Integrated.t) :
  j < length Integrated.columns ->
  column_sums (length Integrated.columns) (df_isnull df) !! j
  = Some (column_null_count j df).
Proof.
  intros Hj. unfold column_sums, column_null_count, df_isnull.
  change (map ?f (seq ?a ?b)) with (f <$> seq a b).
  rewrite list_lookup_fmap.
  rewrite (proj2 (lookup_seq 0 _ j j) (conj eq_refl Hj)).
  simpl. now rewrite map_map.
Qed.

(** X15: [missing_values] maps every column name of the integrated table
    to the number of rows whose cell in that column is null, and has no
    other key. *)
Theorem missing_values_lookup (df : list Integrated.t) :
  (forall j c, Integrated.columns !! j = Some c ->
     missing_values (validate_data df) !! c = Some (column_null_count j df)) /\
  (forall c, c ∉ Integrated.columns ->
     missing_values (validate_data df) !! c = None).
Proof.
  assert (Hfst : (zip Integrated.columns
                    (column_sums (length Integrated.columns) (df_isnull df))).*1
                 = Integrated.columns)
    by (apply fst_zip; now rewrite column_sums_length).
  change (missing_values (validate_data df))
    with (list_to_map
            (zip Integrated.columns
               (column_sums (length Integrated.columns) (df_isnull df)))
          : gmap string nat).
  split.
  - intros j c Hj.
    apply elem_of_list_to_map; [rewrite Hfst; apply columns_nodup |].
    apply list_elem_of_lookup. exists j.
    apply lookup_zip_with_Some. exists c, (column_null_count j df).
    repeat split; trivial.
    apply column_sums_lookup. now apply lookup_lt_Some in Hj.
  - intros c Hc.
    apply not_elem_of_list_to_map. now rewrite Hfst.
Qed.

Lemma missing_values_lookup_witness :
  missing_values
    (validate_data
       (integrate_data init "2024-06-30 12:00:00"
          [normalize_row init no_revenue] [technology]))
  !! "average_margin"%string
  = Some
      (column_null_count 8
         (integrate_data init "2024-06-30 12:00:00"
            [normalize_row init no_revenue] [technology])) /\
  missing_values (validate_data [all_null]) !! "total"%string = None.
Proof.
  split.
  - apply (proj1 (missing_values_lookup _) 8 "average_margin"%string).
    reflexivity.
  - apply (proj2 (missing_values_lookup _)).
    unfold Integrated.columns.
    rewrite !not_elem_of_cons. repeat split; try discriminate.
    apply not_elem_of_nil.
Defined.

Lemma count_true_le_length (s : list bool) : count_true s <= length s.
Proof.
  unfold count_true. induction s as [| [] s IH]; simpl; lia.
Qed.

Lemma missing_cells_bound (df : list Integrated.t) :
  missing_cells_of df <= length df * length Integrated.columns.
Proof.
  unfold missing_cells_of.
  induction df as [| r df IH]; simpl; [lia |].
  pose proof (count_true_le_length (Integrated.isnull_row r)) as H.
  simpl in *. lia.
Qed.

(** The score formula stays between 0 and 100. *)
Lemma score_in_range (t m : Z) :
  (0 < t)%Z -> (0 <= m <= t)%Z ->
  exists s,
    fround 2 (fmul (fdiv (of_int (t - m)) (of_int t)) (Num 100)) = Num s /\
    (0 <= s <= 100)%Q.
Proof.
  intros Ht Hm. unfold of_int.
  assert (Hpos : (0 < inject_Z t)%Q)
    by (change 0%Q with (inject_Z 0); rewrite <- Zlt_Qlt; lia).
  assert (Hnz : ~ (inject_Z t == 0)%Q) by lra.
  rewrite (fdiv_finite _ _ Hnz). cbn [fmul].
  set (q := (inject_Z (t - m) / inject_Z t * 100)%Q).
  assert (Hnum0 : (0 <= inject_Z (t - m))%Q)
    by (change 0%Q with (inject_Z 0); rewrite <- Zle_Qle; lia).
  assert (Hnum1 : (inject_Z (t - m) <= inject_Z t)%Q)
    by (rewrite <- Zle_Qle; lia).
  assert (Hq0 : (0 <= inject_Z (t - m) / inject_Z t)%Q)
    by (apply Qle_shift_div_l; [exact Hpos | lra]).
  assert (Hq1 : (inject_Z (t - m) / inject_Z t <= 1)%Q)
    by (apply Qle_shift_div_r; [exact Hpos | lra]).
  assert (E0 : (inject_Z 0 / 100 == 0)%Q) by reflexivity.
  assert (E1 : (inject_Z 10000 / 100 == 100)%Q) by reflexivity.
  destruct (fround2_lower q 0) as (s & Hs & Hlo); [rewrite E0; unfold q; lra |].
  destruct (fround2_upper q 10000) as (s' & Hs' & Hhi);
    [rewrite E1; unfold q; lra |].
  rewrite Hs in Hs'. injection Hs' as <-.
  exists s. rewrite E0 in Hlo. rewrite E1 in Hhi. auto.
Qed.

(** X16: the number of missing cells never exceeds the number of cells,
    and for a table with at least one row the quality score is a number
    between 0 and 100 with at most 2 decimals. *)
Theorem data_quality_score_range (df : list Integrated.t) :
  missing_cells_of df <= length df * length Integrated.columns /\
  (df <> [] ->
   exists s, data_quality_score (validate_data df) = Num s /\
             (0 <= s <= 100)%Q /\
             has_decimals 2 (data_quality_score (validate_data df))).
Proof.
  split; [apply missing_cells_bound |].
  intros Hne.
  assert (Hscore : data_quality_score (validate_data df)
                   = fround 2
                       (fmul (fdiv (of_int (Z.of_nat (length df * length Integrated.columns)
                                            - Z.of_nat (missing_cells_of df)))
                                   (of_int (Z.of_nat (length df * length Integrated.columns))))
                             (Num 100))).
  { unfold validate_data. cbn [data_quality_score set_data_quality_score].
    rewrite missing_cells_total. reflexivity. }
  pose proof (missing_cells_bound df) as Hb.
  destruct (score_in_range (Z.of_nat (length df * length Integrated.columns))
              (Z.of_nat (missing_cells_of df))) as (s & Hs & Hrange).
  - destruct df; [congruence | simpl; lia].
  - lia.
  - exists s. rewrite Hscore. split; [exact Hs |]. split; [exact Hrange |].
    apply fround_has_decimals.
Qed.

Lemma data_quality_score_range_witness :
  exists s,
    data_quality_score
      (validate_data
         (integrate_data init "2024-06-30 12:00:00"
            [normalize_row init no_revenue] [technology])) = Num s /\
    (0 <= s <= 100)%Q /\
    has_decimals 2
      (data_quality_score
         (validate_data
            (integrate_data init "2024-06-30 12:00:00"
               [normalize_row init no_revenue] [technology]))).
Proof.
  apply (proj2 (data_quality_score_range _)).
  vm_compute. intros H. discriminate H.
Defined.

Lemma difference_seen (x : option string) (S T : gset (option string)) :
  x ∈ S -> ({[x]} ∪ T) ∖ S = T ∖ ({[x]} ∪ S).
Proof.
  intros Hin. apply set_eq. intros y.
  rewrite !elem_of_difference, !elem_of_union, !elem_of_singleton.
  intuition (subst; tauto).
Qed.

Lemma difference_new (x : option string) (S T : gset (option string)) :
  x ∉ S -> ({[x]} ∪ T) ∖ S = {[x]} ∪ T ∖ ({[x]} ∪ S).
Proof.
  intros Hnotin. apply set_eq. intros y.
  rewrite !elem_of_union, !elem_of_difference, !elem_of_union,
    !elem_of_singleton.
  destruct (decide (y = x)); intuition (subst; tauto).
Qed.

Lemma difference_empty (T : gset (option string)) : T ∖ ∅ = T.
Proof.
  apply set_eq. intros y. rewrite elem_of_difference.
  split; [tauto |]. intros Hy. split; [exact Hy | apply not_elem_of_empty].
Qed.

(** Flagged cells and new values add up to the length of the column. *)
Lemma count_duplicated_from (S : gset (option string))
    (s : list (option string)) :
  count_true (duplicated_from S s)
  + size (list_to_set s ∖ S : gset (option string))
  = length s.
Proof.
  revert S. induction s as [| x s IH]; intros S.
  - assert (E : (list_to_set [] ∖ S : gset (option string)) = ∅).
    { apply set_eq. intros y.
      rewrite elem_of_difference, list_to_set_nil, elem_of_empty. tauto. }
    rewrite E, size_empty. reflexivity.
  - cbn [duplicated_from length]. rewrite list_to_set_cons.
    specialize (IH ({[x]} ∪ S)).
    destruct (decide (x ∈ S)) as [Hin | Hnotin].
    + rewrite bool_decide_eq_true_2 by exact Hin.
      rewrite (difference_seen _ _ _ Hin).
      change (count_true (true :: ?l)) with (Datatypes.S (count_true l)).
      lia.
    + rewrite bool_decide_eq_false_2 by exact Hnotin.
      rewrite (difference_new _ _ _ Hnotin).
      rewrite size_union, size_singleton.
      * change (count_true (false :: ?l)) with (count_true l). lia.
      * apply disjoint_singleton_l. rewrite elem_of_difference.
        intros [_ Hn]. apply Hn. apply elem_of_union_l.
        now apply elem_of_singleton.
Qed.

Lemma count_duplicated_zero (S : gset (option string))
    (s : list (option string)) :
  count_true (duplicated_from S s) = 0 ->
  NoDup s /\ forall x, x ∈ s -> x ∉ S.
Proof.
  revert S. induction s as [| x s IH]; intros S H.
  - split; [constructor | intros x Hx; now apply elem_of_nil in Hx].
  - cbn [duplicated_from] in H.
    destruct (decide (x ∈ S)) as [Hin | Hnotin].
    + rewrite bool_decide_eq_true_2 in H by exact Hin. discriminate H.
    + rewrite bool_decide_eq_false_2 in H by exact Hnotin.
      change (count_true (false :: ?l)) with (count_true l) in H.
      destruct (IH _ H) as [Hnd Hfresh]. split.
      * constructor; [| exact Hnd].
        intros Hx. apply (Hfresh x Hx). apply elem_of_union_l.
        now apply elem_of_singleton.
      * intros y [-> | Hy]%elem_of_cons; [exact Hnotin |].
        intros HyS. apply (Hfresh y Hy). now apply elem_of_union_r.
Qed.

(** X17: [duplicate_companies] and the number of distinct company names
    add up to the number of rows, and the count is 0 exactly when the
    company names are pairwise distinct. *)
Theorem duplicate_companies_distinct (df : list Integrated.t) :
  duplicate_companies (validate_data df)
  + distinct_count (map Integrated.company_name df)
  = total_records (validate_data df) /\
  (duplicate_companies (validate_data df) = 0 <->
   NoDup (map Integrated.company_name df)).
Proof.
  change (duplicate_companies (validate_data df))
    with (count_true (duplicated_from ∅ (map Integrated.company_name df))).
  change (total_records (validate_data df)) with (length df).
  split.
  - pose proof (count_duplicated_from ∅ (map Integrated.company_name df)) as H.
    rewrite length_map in H. unfold distinct_count.
    rewrite difference_empty in H. exact H.
  - split.
    + intros H. now apply count_duplicated_zero in H.
    + intros H. apply count_duplicated_nodup; [exact H |].
      intros x _. apply not_elem_of_empty.
Qed.

Lemma duplicate_companies_distinct_witness :
  duplicate_companies
    (validate_data [named (Some "A"%string); named (Some "B"%string)]) = 0.
Proof.
  apply (proj2 (duplicate_companies_distinct
                  [named (Some "A"%string); named (Some "B"%string)])).
  simpl. apply NoDup_cons. split.
  - rewrite list_elem_of_singleton. discriminate.
  - apply NoDup_singleton.
Defined.

Lemma count_true_map_perm {A : Type} (f : A -> bool) (l1 l2 : list A) :
  l1 ≡ₚ l2 -> count_true (map f l1) = count_true (map f l2).
Proof.
  unfold count_true. induction 1; simpl; lia.
Qed.

Lemma column_sums_perm (n : nat) (df1 df2 : list Integrated.t) :
  df1 ≡ₚ df2 ->
  column_sums n (df_isnull df1) = column_sums n (df_isnull df2).
Proof.
  intros H. unfold column_sums, df_isnull.
  apply List.map_ext. intros j. rewrite !map_map.
  now apply count_true_map_perm.
Qed.

(** X18: the validation report does not depend on the order of the rows:
    two tables with the same rows in any order get the same report, the
    duplicate count included. *)
Theorem validate_data_order_independent (df1 df2 : list Integrated.t) :
  df1 ≡ₚ df2 -> validate_data df1 = validate_data df2.
Proof.
  intros H.
  assert (Hlen : length df1 = length df2) by now apply Permutation_length.
  assert (Hdup : count_true (duplicated (map Integrated.company_name df1))
                 = count_true (duplicated (map Integrated.company_name df2))).
  { pose proof (count_duplicated_from ∅ (map Integrated.company_name df1)) as H1.
    pose proof (count_duplicated_from ∅ (map Integrated.company_name df2)) as H2.
    rewrite length_map in H1, H2.
    assert (Hset : (list_to_set (map Integrated.company_name df1)
                    : gset (option string))
                   = list_to_set (map Integrated.company_name df2)).
    { apply list_to_set_perm_L.
      change (map ?f ?l) with (f <$> l). now apply fmap_Permutation. }
    rewrite Hset in H1. unfold duplicated. lia. }
  unfold validate_data, set_data_quality_score, shape. cbn [fst snd].
  cbn [total_records missing_values duplicate_companies negative_values].
  rewrite Hlen, Hdup, (column_sums_perm _ _ _ H).
  rewrite (count_true_map_perm (fun r => flt0 (Integrated.revenue r)) _ _ H).
  rewrite (count_true_map_perm (fun r => flt0 (Integrated.ebitda r)) _ _ H).
  reflexivity.
Qed.

Lemma validate_data_order_independent_witness :
  validate_data [named (Some "A"%string); named (Some "B"%string);
                 named (Some "A"%string)]
  = validate_data [named (Some "A"%string); named (Some "A"%string);
                   named (Some "B"%string)].
Proof.
  apply validate_data_order_independent.
  apply perm_skip, perm_swap.
Defined.

(** ** Complete inputs *)

Lemma finite_fround (d : nat) (x : float64) : finite x -> finite (fround d x).
Proof. now destruct x. Qed.

Lemma integrate_row_complete (self : DataIntegrationPipeline) (now : string)
    (p : Normalized.t) (b : Benchmark.t) :
  complete_private p -> complete_benchmark b ->
  count_true (Integrated.isnull_row (integrate_row self now (join p (Some b))))
  = 0.
Proof.
  destruct p as [cn ind co fy rev ebi mar val], b as [bi am sg av ms].
  unfold complete_private, complete_benchmark. simpl.
  intros (H1 & H2 & H3 & H4 & H5 & H6 & H7 & H8) (H9 & H10 & H11 & H12).
  destruct cn, ind, co, fy; try congruence.
  repeat match goal with
         | H : finite ?x |- _ => destruct x; [clear H | destruct H ..]
         end.
  reflexivity.
Qed.

Lemma missing_cells_zero (df : list Integrated.t) :
  (forall r, r ∈ df -> count_true (Integrated.isnull_row r) = 0) ->
  missing_cells_of df = 0.
Proof.
  unfold missing_cells_of.
  induction df as [| r df IH]; intros H; [reflexivity |].
  cbn [sum_list_with]. rewrite (H r) by apply list_elem_of_here.
  apply IH. intros r' Hr'. apply H. now apply list_elem_of_further.
Qed.

Lemma score_of_complete_table (df : list Integrated.t) :
  df <> [] -> missing_cells_of df = 0 ->
  feq (data_quality_score (validate_data df)) (Num 100).
Proof.
  intros Hne Hzero.
  unfold validate_data. cbn [data_quality_score set_data_quality_score].
  rewrite missing_cells_total, Hzero.
  apply score_complete. destruct df; [congruence | simpl; lia].
Qed.

Lemma integrate_complete_rows (self : DataIntegrationPipeline) (now : string)
    (P : list Normalized.t) (B : list Benchmark.t) :
  Forall complete_private P -> Forall complete_benchmark B ->
  (forall p, p ∈ P -> 0 < match_count B p) ->
  missing_cells_of (integrate_data self now P B) = 0.
Proof.
  intros HP HB Hmatch. apply missing_cells_zero.
  intros r (m & Hm & ->)%integrate_data_elem.
  apply merge_left_elem in Hm as (p & Hp & Hm).
  apply merge_row_elem in Hm as [[Hnil _] | (b & Hb & ->)].
  - specialize (Hmatch p Hp). unfold match_count in Hmatch.
    rewrite Hnil in Hmatch. simpl in Hmatch. lia.
  - apply matches_elem in Hb as [_ Hb].
    apply integrate_row_complete.
    + exact (proj1 (Forall_forall _ _) HP p Hp).
    + exact (proj1 (Forall_forall _ _) HB b Hb).
Qed.

(** X19: when every private row is complete (no null cell, numbers in the
    float cells), every benchmark row has numbers in its metrics and every
    private row has at least one benchmark match, the integrated table has
    no missing cell, and if it has a row its quality score is 100. *)
Theorem complete_inputs_score_100 (self : DataIntegrationPipeline)
    (now : string) (P : list Normalized.t) (B : list Benchmark.t) :
  Forall complete_private P -> Forall complete_benchmark B ->
  (forall p, p ∈ P -> 0 < match_count B p) ->
  missing_cells_of (integrate_data self now P B) = 0 /\
  (P <> [] ->
   feq (data_quality_score (validate_data (integrate_data self now P B)))
       (Num 100)).
Proof.
  intros HP HB Hmatch.
  pose proof (integrate_complete_rows self now P B HP HB Hmatch) as Hzero.
  split; [exact Hzero |].
  intros Hne. apply score_of_complete_table; [| exact Hzero].
  intros Hnil. apply (f_equal length) in Hnil.
  rewrite integrate_data_length in Hnil.
  pose proof (sum_max1_ge B P). destruct P; [congruence | simpl in *; lia].
Qed.

Lemma complete_inputs_score_100_witness :
  feq (data_quality_score
         (validate_data
            (integrate_data init "2024-06-30 12:00:00"
               [normalize_row init company_a] [technology; technology'])))
      (Num 100).
Proof.
  apply (complete_inputs_score_100 init "2024-06-30 12:00:00"
           [normalize_row init company_a] [technology; technology']).
  - repeat constructor; discriminate.
  - repeat constructor.
  - intros p Hp. apply list_elem_of_singleton in Hp. subst p.
    vm_compute. lia.
  - discriminate.
Defined.

(** ** The simulated data source *)

Lemma byte_inj (x y : Z) :
  (0 <= x < 256)%Z -> (0 <= y < 256)%Z -> byte x = byte y -> x = y.
Proof.
  intros Hx Hy H. unfold byte in H.
  apply (f_equal Ascii.N_of_ascii) in H.
  rewrite !Ascii.N_ascii_embedding in H by lia. lia.
Qed.

(** Distinct code points have distinct characters. *)
Lemma chr_inj (a b : Z) :
  (0 <= a < 1114112)%Z -> (0 <= b < 1114112)%Z -> chr a = chr b -> a = b.
Proof.
  intros Ha Hb. unfold chr.
  destruct (Z.ltb_spec a 128) as [A1 | A1], (Z.ltb_spec a 2048) as [A2 | A2],
    (Z.ltb_spec a 65536) as [A3 | A3], (Z.ltb_spec b 128) as [B1 | B1],
    (Z.ltb_spec b 2048) as [B2 | B2], (Z.ltb_spec b 65536) as [B3 | B3];
    try lia; intros E; try discriminate E; injection E; clear E; intros.
  all: repeat match goal with
       | E : byte _ = byte _ |- _ =>
           apply byte_inj in E; [| Z.div_mod_to_equations; lia ..]
       end.
  all: Z.div_mod_to_equations; lia.
Qed.

Lemma company_label_inj (i j : nat) :
  (Z.of_nat i <= 1114046)%Z -> (Z.of_nat j <= 1114046)%Z ->
  company_label i = company_label j -> i = j.
Proof.
  intros Hi Hj H. unfold company_label in H.
  cbn [String.append] in H. injection H as H.
  apply chr_inj in H; lia.
Qed.

Lemma simulate_private_names (rng : PrivateDraws) (n : nat) :
  map Raw.company_name (simulate_private_market_data rng n)
  = map (fun i => Some (company_label i)) (seq 0 n).
Proof. unfold simulate_private_market_data. now rewrite map_map. Qed.

Lemma company_labels_nodup (n : nat) :
  (Z.of_nat n <= 1114047)%Z ->
  NoDup (map (fun i => Some (company_label i)) (seq 0 n)).
Proof.
  intros Hn. change (map ?f ?l) with (f <$> l).
  apply NoDup_fmap_2_strong; [| apply NoDup_seq].
  intros i j Hi%elem_of_seq Hj%elem_of_seq H.
  assert (Hl : company_label i = company_label j) by congruence.
  apply company_label_inj in Hl; lia.
Qed.

Lemma simulate_private_elem (rng : PrivateDraws) (n : nat) (row : Raw.t) :
  row ∈ simulate_private_market_data rng n ->
  exists i, i < n /\ simulate_private_market_data rng n !! i = Some row /\
    Raw.company_name row = Some (company_label i) /\
    Raw.industry row = take n industries !! industry_choice rng i /\
    Raw.revenue_local row = Num (revenue_local_uniform rng i) /\
    Raw.ebitda_local row = Num (ebitda_local_uniform rng i) /\
    Raw.valuation_multiple row = Num (valuation_multiple_uniform rng i) /\
    Raw.country row = countries !! country_choice rng i /\
    Raw.fiscal_year row = Some 2024%Z /\
    Raw.currency row
    = Some (currency_label (countries !! currency_choice rng i)).
Proof.
  unfold simulate_private_market_data.
  change (map ?f ?l) with (f <$> l).
  intros (i & -> & Hi%elem_of_seq)%list_elem_of_fmap.
  exists i. split; [lia |]. split.
  - rewrite list_lookup_fmap.
    now rewrite (proj2 (lookup_seq 0 n i i) (conj eq_refl (proj2 Hi))).
  - repeat split.
Qed.

(** X20: for every number of companies that [chr] can name (65 + i up to
    the last code point 0x10FFFF; beyond it Python raises [ValueError]),
    the simulated private table has [num_companies] rows, row i is named
    "Company_" followed by the character of code 65 + i, and the names are
    pairwise distinct: Company_A, ..., Company_J for the first ten, and no
    wrap-around after code 255. When the draws lie where numpy puts them,
    every row has an industry among the first [num_companies] industries,
    one of the five countries, fiscal year 2024 and a revenue between 50
    and 500. The currency label comes from a draw of its own: a row can
    pair Germany with BRL. *)
Theorem simulated_private_table (rng : PrivateDraws) (num_companies : nat) :
  (Z.of_nat num_companies <= 1114047)%Z ->
  length (simulate_private_market_data rng num_companies) = num_companies /\
  map Raw.company_name (simulate_private_market_data rng num_companies)
  = map (fun i => Some (company_label i)) (seq 0 num_companies) /\
  NoDup (map Raw.company_name
           (simulate_private_market_data rng num_companies)) /\
  (company_label 0 = "Company_A"%string /\
   company_label 9 = "Company_J"%string /\
   company_label 191 = "Company_Ā"%string /\
   company_label 191 <> company_label 447) /\
  (private_draws_in_range rng num_companies ->
   forall row, row ∈ simulate_private_market_data rng num_companies ->
     (exists s, Raw.industry row = Some s /\ s ∈ take num_companies industries) /\
     (exists c, Raw.country row = Some c /\ c ∈ countries) /\
     Raw.fiscal_year row = Some 2024%Z /\
     (exists x, Raw.revenue_local row = Num x /\ (50 <= x <= 500)%Q)) /\
  (exists row,
     simulate_private_market_data sample_private_draws 1 = [row] /\
     Raw.country row = Some "Germany"%string /\
     Raw.currency row = Some "BRL"%string).
Proof.
  intros Hn. repeat apply conj.
  - unfold simulate_private_market_data. now rewrite length_map, length_seq.
  - apply simulate_private_names.
  - rewrite simulate_private_names. now apply company_labels_nodup.
  - reflexivity.
  - reflexivity.
  - reflexivity.
  - vm_compute. intros H. discriminate H.
  - intros Hrange row (i & Hi & _ & _ & Hind & Hrev & _ & _ & Hco & Hfy & _)
      %simulate_private_elem.
    destruct (Hrange i Hi) as (H1 & H2 & _ & _ & H5 & _).
    apply lookup_lt_is_Some in H1 as [s Hs].
    apply lookup_lt_is_Some in H5 as [c Hc].
    repeat split.
    + exists s. split; [congruence |]. apply list_elem_of_lookup. eauto.
    + exists c. split; [congruence |]. apply list_elem_of_lookup. eauto.
    + exact Hfy.
    + eexists. split; [exact Hrev | exact H2].
  - eexists. split; [reflexivity |]. split; reflexivity.
Qed.

Lemma sample_private_draws_in_range : private_draws_in_range sample_private_draws 10.
Proof.
  intros i Hi. simpl.
  repeat split; try lia; try (intros H; discriminate H).
Qed.

Lemma simulated_private_table_witness :
  NoDup (map Raw.company_name
           (simulate_private_market_data sample_private_draws 10)) /\
  forall row, row ∈ simulate_private_market_data sample_private_draws 10 ->
    (exists s, Raw.industry row = Some s /\ s ∈ take 10 industries) /\
    (exists c, Raw.country row = Some c /\ c ∈ countries) /\
    Raw.fiscal_year row = Some 2024%Z /\
    (exists x, Raw.revenue_local row = Num x /\ (50 <= x <= 500)%Q).
Proof.
  destruct (simulated_private_table sample_private_draws 10)
    as (_ & _ & Hnd & _ & Hrows & _).
  - vm_compute. intros H. discriminate H.
  - split.
    + exact Hnd.
    + apply Hrows. apply sample_private_draws_in_range.
Defined.

Lemma simulate_benchmark_keys (rng : BenchmarkDraws) :
  map Benchmark.industry (simulate_industry_benchmark_data rng)
  = map Some industries.
Proof. reflexivity. Qed.

Lemma industries_nodup : NoDup (map Some industries).
Proof. apply (bool_decide_unpack _). vm_compute. reflexivity. Qed.

Lemma simulate_benchmark_complete (rng : BenchmarkDraws) :
  Forall complete_benchmark (simulate_industry_benchmark_data rng).
Proof. repeat constructor. Qed.

(** X21: the simulated benchmark table has one row for each of the ten
    industries, in the order of the list, so its join key is unique, and
    every metric cell holds a number. *)
Theorem simulated_benchmark_table (rng : BenchmarkDraws) :
  map Benchmark.industry (simulate_industry_benchmark_data rng)
  = map Some industries /\
  length (simulate_industry_benchmark_data rng) = 10 /\
  NoDup (map Benchmark.industry (simulate_industry_benchmark_data rng)) /\
  Forall complete_benchmark (simulate_industry_benchmark_data rng).
Proof.
  repeat apply conj.
  - apply simulate_benchmark_keys.
  - reflexivity.
  - rewrite simulate_benchmark_keys. apply industries_nodup.
  - apply simulate_benchmark_complete.
Qed.

(** ** The orchestrator on simulated data *)

Lemma init_rates_at_least (k : string) (r : Q) :
  currency_rates init !! k = Some r -> (0.012 <= r)%Q.
Proof.
  unfold init; simpl.
  rewrite !lookup_insert, lookup_empty.
  repeat case_decide; intros [= <-]; intros Hgt; discriminate Hgt.
Qed.

Lemma init_rate_at_least (c : option string) :
  (0.012 <= dict_get (currency_rates init) c 1)%Q.
Proof.
  destruct (dict_get_cases (currency_rates init) c 1) as [-> | (k & _ & H)].
  - intros H. discriminate H.
  - exact (init_rates_at_least _ _ H).
Qed.

(** An amount of at least [lo] cents times 1000 / 12 converts and rounds to
    at least [lo] cents. *)
Lemma converted_amount_lower (x : Q) (c : option string) (lo : Z) :
  (inject_Z lo / 100 <= 0.012 * x)%Q -> (0 <= x)%Q ->
  exists b, fround 2 (convert_currency init (Num x) c) = Num b /\
            (inject_Z lo / 100 <= b)%Q.
Proof.
  intros Hlo Hx. unfold convert_currency. cbn [fmul].
  apply fround2_lower.
  pose proof (init_rate_at_least c) as Hr.
  set (rate := dict_get (currency_rates init) c 1) in *.
  nra.
Qed.

Lemma normalize_row_complete (row : Raw.t) (x e v : Q) :
  Raw.company_name row <> None -> Raw.industry row <> None ->
  Raw.country row <> None -> Raw.fiscal_year row <> None ->
  Raw.revenue_local row = Num x -> (50 <= x)%Q ->
  Raw.ebitda_local row = Num e -> (10 <= e)%Q ->
  Raw.valuation_multiple row = Num v ->
  complete_private (normalize_row init row) /\
  flt0 (Normalized.revenue (normalize_row init row)) = false /\
  flt0 (Normalized.ebitda (normalize_row init row)) = false.
Proof.
  intros H1 H2 H3 H4 Hrev Hx Heb He Hval.
  destruct (converted_amount_lower x (Raw.country row) 60) as (r & Hr & Hr0).
  { assert (E : (inject_Z 60 / 100 == 0.6)%Q) by reflexivity. rewrite E. lra. }
  { lra. }
  destruct (converted_amount_lower e (Raw.country row) 12) as (b & Hb & Hb0).
  { assert (E : (inject_Z 12 / 100 == 0.12)%Q) by reflexivity. rewrite E. lra. }
  { lra. }
  assert (E60 : (inject_Z 60 / 100 == 0.6)%Q) by reflexivity.
  assert (E12 : (inject_Z 12 / 100 == 0.12)%Q) by reflexivity.
  rewrite E60 in Hr0. rewrite E12 in Hb0.
  unfold complete_private, normalize_row.
  cbn [Normalized.company_name Normalized.industry Normalized.country
       Normalized.fiscal_year Normalized.revenue Normalized.ebitda
       Normalized.ebitda_margin Normalized.valuation_multiple].
  rewrite Hrev, Heb, Hval, Hr, Hb.
  rewrite fdiv_finite by lra.
  repeat split; trivial.
  - cbn [flt0]. destruct (Qcompare_spec r 0); trivial. lra.
  - cbn [flt0]. destruct (Qcompare_spec b 0); trivial. lra.
Qed.

Lemma matches_exactly_one (key : option string) (B : list Benchmark.t) :
  NoDup (map Benchmark.industry B) -> key ∈ map Benchmark.industry B ->
  length (matches key B) = 1.
Proof.
  intros Hnd Hin.
  pose proof (matches_unique key B Hnd) as Hle.
  change (map ?f ?l) with (f <$> l) in Hin.
  apply list_elem_of_fmap in Hin as (b & -> & Hb).
  assert (Hm : b ∈ matches (Benchmark.industry b) B)
    by (apply matches_elem; auto).
  destruct (matches (Benchmark.industry b) B); [| simpl in *; lia].
  now apply elem_of_nil in Hm.
Qed.

Lemma take_industries : take 10 industries = industries.
Proof. reflexivity. Qed.

(** The normalized simulated tables: complete private rows without
    negative amounts, a complete benchmark table, one match per row. *)
Lemma simulated_inputs (private_rng : PrivateDraws)
    (benchmark_rng : BenchmarkDraws) :
  private_draws_in_range private_rng 10 ->
  let P := normalize_private_data init
             (simulate_private_market_data private_rng 10) in
  let B := normalize_benchmark_data
             (simulate_industry_benchmark_data benchmark_rng) in
  Forall complete_private P /\
  Forall complete_benchmark B /\
  (forall p, p ∈ P -> match_count B p = 1) /\
  (forall p, p ∈ P ->
     flt0 (Normalized.revenue p) = false /\ flt0 (Normalized.ebitda p) = false) /\
  map Normalized.company_name P
  = map (fun i => Some (company_label i)) (seq 0 10).
Proof.
  intros Hrange P B.
  assert (Hrow : forall p, p ∈ P ->
            complete_private p /\
            flt0 (Normalized.revenue p) = false /\
            flt0 (Normalized.ebitda p) = false /\
            Normalized.industry p ∈ map Some industries).
  { intros p (row & Hrow & ->)%normalize_private_data_elem.
    apply simulate_private_elem in Hrow
      as (i & Hi & _ & Hname & Hind & Hrev & Heb & Hval & Hco & Hfy & _).
    destruct (Hrange i Hi) as (H1 & H2 & H3 & _ & H5 & _).
    apply lookup_lt_is_Some in H1 as [s Hs].
    apply lookup_lt_is_Some in H5 as [c Hc].
    destruct (normalize_row_complete row
                (revenue_local_uniform private_rng i)
                (ebitda_local_uniform private_rng i)
                (valuation_multiple_uniform private_rng i))
      as (Hc1 & Hc2 & Hc3); try congruence; try tauto.
    split; [exact Hc1 |]. split; [exact Hc2 |]. split; [exact Hc3 |].
    change (Normalized.industry (normalize_row init row))
      with (Raw.industry row).
    rewrite Hind, Hs. rewrite take_industries in Hs.
    change (map ?f ?l) with (f <$> l).
    apply list_elem_of_fmap. exists s. split; [reflexivity |].
    apply list_elem_of_lookup. eauto. }
  repeat apply conj.
  - apply Forall_forall. intros p Hp. now apply Hrow.
  - subst B. rewrite normalize_benchmark_data_rows.
    repeat constructor.
  - intros p Hp. unfold match_count. apply matches_exactly_one.
    + subst B. rewrite normalize_benchmark_data_keys, simulate_benchmark_keys.
      apply industries_nodup.
    + subst B. rewrite normalize_benchmark_data_keys, simulate_benchmark_keys.
      now apply Hrow.
  - intros p Hp. destruct (Hrow p Hp) as (_ & ? & ? & _). auto.
  - subst P. rewrite normalize_private_data_rows, map_map.
    unfold simulate_private_market_data. rewrite map_map. reflexivity.
Qed.

Lemma integrate_data_private_cell (self : DataIntegrationPipeline)
    (now : string) (P : list Normalized.t) (B : list Benchmark.t)
    (r : Integrated.t) :
  r ∈ integrate_data self now P B ->
  exists p, p ∈ P /\ private_part r = p.
Proof.
  intros (m & Hm & ->)%integrate_data_elem.
  apply merge_left_elem in Hm as (p & Hp & Hm).
  exists p. split; [exact Hp |].
  apply merge_row_elem in Hm as [[_ ->] | (b & _ & ->)];
    apply private_part_integrate_row.
Qed.

Lemma integrate_one_to_one_names (self : DataIntegrationPipeline)
    (now : string) (P : list Normalized.t) (B : list Benchmark.t) :
  (forall p, p ∈ P -> match_count B p <= 1) ->
  map Integrated.company_name (integrate_data self now P B)
  = map Normalized.company_name P.
Proof.
  intros Hone.
  rewrite integrate_data_rows, (merge_left_one_to_one _ _ Hone), !map_map.
  apply List.map_ext. intros p.
  now destruct (head (matches (Normalized.industry p) B)).
Qed.

(** X22: the whole run on simulated data. When the draws lie where numpy
    puts them, [run_pipeline] returns one integrated row per simulated
    company, in the order Company_A to Company_J, together with the report
    of that table: 10 records, no duplicate company, no missing cell, a
    quality score of 100 and no negative revenue or ebitda. *)
Theorem run_pipeline_on_simulated_data (now : string)
    (private_rng : PrivateDraws) (benchmark_rng : BenchmarkDraws) :
  private_draws_in_range private_rng 10 ->
  let out := run_pipeline init now private_rng benchmark_rng in
  out.2 = validate_data out.1 /\
  map Integrated.company_name out.1
  = map (fun i => Some (company_label i)) (seq 0 10) /\
  total_records out.2 = 10 /\
  duplicate_companies out.2 = 0 /\
  missing_cells_of out.1 = 0 /\
  feq (data_quality_score out.2) (Num 100) /\
  negative_values out.2 !! "revenue"%string = Some 0 /\
  negative_values out.2 !! "ebitda"%string = Some 0.
Proof.
  intros Hrange out.
  destruct (simulated_inputs private_rng benchmark_rng Hrange)
    as (HP & HB & Hone & Hneg & HPnames).
  set (P := normalize_private_data init
              (simulate_private_market_data private_rng 10)) in *.
  set (B := normalize_benchmark_data
              (simulate_industry_benchmark_data benchmark_rng)) in *.
  change (out.1) with (integrate_data init now P B).
  change (out.2) with (validate_data (integrate_data init now P B)).
  assert (Hle : forall p, p ∈ P -> match_count B p <= 1)
    by (intros p Hp; rewrite (Hone p Hp); lia).
  assert (Hnames : map Integrated.company_name (integrate_data init now P B)
                   = map (fun i => Some (company_label i)) (seq 0 10))
    by (rewrite integrate_one_to_one_names by exact Hle; exact HPnames).
  assert (Hlen : length (integrate_data init now P B) = 10).
  { apply (f_equal length) in Hnames. now rewrite !length_map in Hnames. }
  assert (Hmissing : missing_cells_of (integrate_data init now P B) = 0).
  { apply integrate_complete_rows; trivial.
    intros p Hp. rewrite (Hone p Hp). lia. }
  assert (Hcell : forall r, r ∈ integrate_data init now P B ->
            flt0 (Integrated.revenue r) = false /\
            flt0 (Integrated.ebitda r) = false).
  { intros r (p & Hp & <-)%integrate_data_private_cell.
    exact (Hneg _ Hp). }
  repeat apply conj.
  - reflexivity.
  - exact Hnames.
  - exact Hlen.
  - change (duplicate_companies (validate_data (integrate_data init now P B)))
      with (count_true
              (duplicated_from ∅
                 (map Integrated.company_name (integrate_data init now P B)))).
    rewrite Hnames. apply count_duplicated_nodup.
    + apply company_labels_nodup. lia.
    + intros x _. apply not_elem_of_empty.
  - exact Hmissing.
  - apply score_of_complete_table; [| exact Hmissing].
    intros Hnil. rewrite Hnil in Hlen. discriminate Hlen.
  - unfold validate_data, set_data_quality_score. cbn [negative_values].
    rewrite lookup_insert_eq. f_equal.
    apply count_true_all_false. intros r Hr. now apply Hcell.
  - unfold validate_data, set_data_quality_score. cbn [negative_values].
    rewrite lookup_insert_ne by discriminate.
    rewrite lookup_insert_eq. f_equal.
    apply count_true_all_false. intros r Hr. now apply Hcell.
Qed.

Lemma run_pipeline_on_simulated_data_witness :
  feq (data_quality_score
         (run_pipeline init "2024-06-30 12:00:00"
            sample_private_draws sample_benchmark_draws).2)
      (Num 100) /\
  duplicate_companies
    (run_pipeline init "2024-06-30 12:00:00"
       sample_private_draws sample_benchmark_draws).2 = 0.
Proof.
  pose proof (run_pipeline_on_simulated_data "2024-06-30 12:00:00"
                sample_private_draws sample_benchmark_draws
                sample_private_draws_in_range)
    as (_ & _ & _ & Hdup & _ & Hscore & _).
  split; [exact Hscore | exact Hdup].
Defined.
